(** * NeedRepository (server/db/repo/need.go): a shallow embedding

    The repository issues SQL statements through one connection handle
    and maps rows to [model.Need] values.  The embedding threads a
    [World] (tables, the statements sent so far, what the driver will
    answer next, the clock) through a small state monad in which a Go
    panic is an outcome of its own.  A Go pair [(v, err)] is a Rocq pair
    [(v, e)] with [e : option error], [None] being [nil]. *)

From Stdlib Require Import ZArith List String Ascii Bool Lia DecimalString.
Import ListNotations.
Local Open Scope string_scope.
Local Open Scope list_scope.
Local Open Scope Z_scope.

(** ** Go strings: byte strings, [strings.TrimSpace], [%d] *)

Module strings.

(** The six ASCII white space bytes: \t \n \v \f \r and space. *)
Definition asciiSpace (c : ascii) : bool :=
  match N_of_ascii c with
  | 9 | 10 | 11 | 12 | 13 | 32 => true
  | _ => false
  end%N.

(** UTF-8 encodings on two bytes of the white space runes U+0085 and
    U+00A0. *)
Definition space2 (b0 b1 : ascii) : bool :=
  match N_of_ascii b0, N_of_ascii b1 with
  | 194, 133 | 194, 160 => true
  | _, _ => false
  end%N.

(** UTF-8 encodings on three bytes of the white space runes U+1680,
    U+2000..U+200A, U+2028, U+2029, U+202F, U+205F and U+3000. *)
Definition space3 (b0 b1 b2 : ascii) : bool :=
  match N_of_ascii b0, N_of_ascii b1, N_of_ascii b2 with
  | 225, 154, 128 => true
  | 226, 128, n => ((128 <=? n) && (n <=? 138) || (n =? 168) || (n =? 169) || (n =? 175))%N
  | 226, 129, 159 => true
  | 227, 128, 128 => true
  | _, _, _ => false
  end%N.

(** Drops the white space runes at the head of [s].  With [back] the
    bytes of [s] are read last byte first (the string was reversed), so
    the bytes of one rune come in the opposite order. *)
Fixpoint dropSpace (back : bool) (s : list ascii) {struct s} : list ascii :=
  match s with
  | [] => s
  | c0 :: s1 =>
      if asciiSpace c0 then dropSpace back s1 else
      match s1 with
      | [] => s
      | c1 :: s2 =>
          if (if back then space2 c1 c0 else space2 c0 c1) then dropSpace back s2 else
          match s2 with
          | [] => s
          | c2 :: s3 =>
              if (if back then space3 c2 c1 c0 else space3 c0 c1 c2)
              then dropSpace back s3 else s
          end
      end
  end.

(** [strings.TrimSpace]: leading white space is removed, then trailing
    white space of what is left. *)
Definition TrimSpace (s : string) : string :=
  string_of_list_ascii
    (rev (dropSpace true (rev (dropSpace false (list_ascii_of_string s))))).

(** [len(s)], in bytes. *)
Definition len (s : string) : Z := Z.of_nat (String.length s).

(** The verb [%d] of package fmt on an integer. *)
Definition itoa (z : Z) : string := NilZero.string_of_int (Z.to_int z).

End strings.

(** ** Errors *)

(** A Go [error] value.  [ErrNoRows] is the sentinel [sql.ErrNoRows];
    [errorString] is what [errors.New] and [fmt.Errorf] build, never equal
    to the sentinel; [DriverError] stands for every other failure the
    database driver reports. *)
Inductive error : Type :=
| ErrNoRows
| DriverError (msg : string)
| errorString (msg : string).

Definition error_eqb (a b : error) : bool :=
  match a, b with
  | ErrNoRows, ErrNoRows => true
  | DriverError x, DriverError y => String.eqb x y
  | errorString x, errorString y => String.eqb x y
  | _, _ => false
  end.

(** ** The model package *)

(** Modelled from the spec: package model is not under src/.  The status
    of a need is an enumerated value, Active or another state. *)
Inductive needStatus : Type :=
| NeedStatusActive
| NeedStatusInactive
| NeedStatusOther (s : string).

(** Modelled from the spec: the summary of a category that a need embeds. *)
Record Category : Type := mkCategory {
  Category_ID : Z;
  Category_Name : string
}.

(** Modelled from the spec: the base (summary) view of an organization. *)
Record BaseOrganization : Type := mkBaseOrganization {
  Organization_ID : Z;
  Organization_Name : string
}.

(** [model.Image] and [model.NeedImage]: the fields need.go reads are
    [ID], [NeedID], [Image.Name] and [Image.URL]. *)
Record Image : Type := mkImage {
  Name : string;
  URL : string
}.

Record NeedImage : Type := mkNeedImage {
  NeedImage_ID : Z;
  NeedID : Z;
  NeedImage_Image : Image
}.

(** [model.Need].  The first twelve fields are the columns of table
    needs; [Images], [Category] and [Organization] are filled by the
    repository.  A nil slice and an empty one are both [[]]. *)
Record Need : Type := mkNeed {
  ID : Z;
  CategoryID : Z;
  OrganizationID : Z;
  Title : string;
  Description : string;
  RequiredQuantity : Z;
  ReachedQuantity : Z;
  DueDate : option Z;
  Status : needStatus;
  Unit : string;
  CreatedAt : Z;
  UpdatedAt : option Z;
  Images : list NeedImage;
  Category_ : Category;
  Organization : BaseOrganization
}.

Definition zeroCategory : Category := mkCategory 0 "".
Definition zeroOrganization : BaseOrganization := mkBaseOrganization 0 "".

(** [model.Need{}] *)
Definition zeroNeed : Need :=
  mkNeed 0 0 0 "" "" 0 0 None (NeedStatusOther "") "" 0 None [] zeroCategory zeroOrganization.

Definition set_ID (n : Need) (v : Z) : Need :=
  mkNeed v (CategoryID n) (OrganizationID n) (Title n) (Description n)
    (RequiredQuantity n) (ReachedQuantity n) (DueDate n) (Status n) (Unit n)
    (CreatedAt n) (UpdatedAt n) (Images n) (Category_ n) (Organization n).

Definition set_Title (n : Need) (v : string) : Need :=
  mkNeed (ID n) (CategoryID n) (OrganizationID n) v (Description n)
    (RequiredQuantity n) (ReachedQuantity n) (DueDate n) (Status n) (Unit n)
    (CreatedAt n) (UpdatedAt n) (Images n) (Category_ n) (Organization n).

Definition set_Status (n : Need) (v : needStatus) : Need :=
  mkNeed (ID n) (CategoryID n) (OrganizationID n) (Title n) (Description n)
    (RequiredQuantity n) (ReachedQuantity n) (DueDate n) v (Unit n)
    (CreatedAt n) (UpdatedAt n) (Images n) (Category_ n) (Organization n).

Definition set_Images (n : Need) (v : list NeedImage) : Need :=
  mkNeed (ID n) (CategoryID n) (OrganizationID n) (Title n) (Description n)
    (RequiredQuantity n) (ReachedQuantity n) (DueDate n) (Status n) (Unit n)
    (CreatedAt n) (UpdatedAt n) v (Category_ n) (Organization n).

Definition set_Category (n : Need) (v : Category) : Need :=
  mkNeed (ID n) (CategoryID n) (OrganizationID n) (Title n) (Description n)
    (RequiredQuantity n) (ReachedQuantity n) (DueDate n) (Status n) (Unit n)
    (CreatedAt n) (UpdatedAt n) (Images n) v (Organization n).

Definition set_Organization (n : Need) (v : BaseOrganization) : Need :=
  mkNeed (ID n) (CategoryID n) (OrganizationID n) (Title n) (Description n)
    (RequiredQuantity n) (ReachedQuantity n) (DueDate n) (Status n) (Unit n)
    (CreatedAt n) (UpdatedAt n) (Images n) (Category_ n) v.

Definition set_NeedImage_ID (i : NeedImage) (v : Z) : NeedImage :=
  mkNeedImage v (NeedID i) (NeedImage_Image i).

(** ** The database *)

(** A row of table needs, with the columns that the statements of
    need.go name. *)
Record NeedRow : Type := mkNeedRow {
  id : Z;
  category_id : Z;
  organization_id : Z;
  title : string;
  description : string;
  required_qtd : Z;
  reached_qtd : Z;
  due_date : option Z;
  status : needStatus;
  unit_ : string;
  created_at : Z;
  updated_at : option Z
}.

(** Modelled from the spec: the schema is not under src/.  Tables needs
    and needs_images draw their identifiers from a sequence each;
    categories and organizations are owned by the collaborators. *)
Record DB : Type := mkDB {
  needs : list NeedRow;
  needs_images : list NeedImage;
  categories : list Category;
  organizations : list BaseOrganization;
  needs_id_seq : Z;
  needs_images_id_seq : Z
}.

(** The statements that the repository and its collaborators send.  Each
    constructor is one SQL text of the source with its arguments in the
    order of the placeholders; the listing query carries its text, which
    the source builds at run time. *)
Inductive Stmt : Type :=
(* SELECT * FROM needs WHERE id = $1 *)
| SelectNeed (id : Z)
(* SELECT * FROM needs_images WHERE need_id = $1 *)
| SelectNeedsImages (need_id : Z)
(* the collaborators' lookups by identifier *)
| SelectCategory (id : Z)
| SelectOrganization (id : Z)
(* INSERT INTO needs (category_id, organization_id, title, description,
   required_qtd, reached_qtd, due_date, status, unit)
   VALUES($1, $2, $3, $4, $5, $6, $7, $8, $9) RETURNING id *)
| InsertNeed (category_id organization_id : Z) (title description : string)
    (required_qtd reached_qtd : Z) (due_date : option Z) (status : needStatus)
    (unit_ : string)
(* UPDATE needs SET category_id = $1, title = $2, description = $3,
   required_qtd = $4, reached_qtd = $5, due_date = $6, unit = $7,
   status = $8, updated_at = now() WHERE id = $9 *)
| UpdateNeed (category_id : Z) (title description : string)
    (required_qtd reached_qtd : Z) (due_date : option Z) (unit_ : string)
    (status : needStatus) (id : Z)
(* INSERT INTO needs_images (need_id, name, url) VALUES($1, $2, $3)
   RETURNING id *)
| InsertNeedsImages (need_id : Z) (name url : string)
(* DELETE FROM needs_images WHERE id = $1 AND need_id = $2 *)
| DeleteNeedsImages (id need_id : Z)
(* the text built by GetOrganizationNeeds, and its $1 *)
| SelectOrganizationNeeds (sql : string) (organization_id : Z).

Definition is_write (s : Stmt) : bool :=
  match s with
  | InsertNeed _ _ _ _ _ _ _ _ _ | UpdateNeed _ _ _ _ _ _ _ _ _
  | InsertNeedsImages _ _ _ | DeleteNeedsImages _ _ => true
  | _ => false
  end.

(** The world of one connection: the tables, the answers the driver has
    in store for the statements to come ([Some e]: the statement fails
    with [e] and has no effect; [None], or nothing left: it runs), the
    statements sent so far, and the value of now(). *)
Record World : Type := mkWorld {
  db : DB;
  faults : list (option error);
  log : list Stmt;
  now : Z
}.

(** ** The monad: state passing, with panic *)

Inductive outcome (A : Type) : Type :=
| Returned (w : World) (a : A)
| Panicked (w : World) (msg : string).
Arguments Returned {A} w a.
Arguments Panicked {A} w msg.

Definition M (A : Type) : Type := World -> outcome A.

Definition ret {A} (a : A) : M A := fun w => Returned w a.

Definition bind {A B} (m : M A) (k : A -> M B) : M B :=
  fun w =>
    match m w with
    | Returned w' a => k a w'
    | Panicked w' msg => Panicked w' msg
    end.

Definition panic {A} (msg : string) : M A := fun w => Panicked w msg.

Declare Scope go_scope.
Delimit Scope go_scope with go.
Notation "x <- m ;; k" := (bind m (fun x => k))
  (at level 100, m at next level, right associativity) : go_scope.
Notation "' p <- m ;; k" := (bind m (fun x => match x with p => k end))
  (at level 100, p pattern, m at next level, right associativity) : go_scope.
Local Open Scope go_scope.

(** The state in which a computation ends, and its value when it
    returns. *)
Definition final {A} (o : outcome A) : World :=
  match o with Returned w _ => w | Panicked w _ => w end.

Definition value {A} (o : outcome A) : option A :=
  match o with Returned _ a => Some a | Panicked _ _ => None end.

(** The driver's answer to the next statement, and the world once a
    statement has gone out: it is logged and the answer is used up. *)
Definition answer (w : World) : option error :=
  match faults w with
  | Some e :: _ => Some e
  | _ => None
  end.

Definition sent (s : Stmt) (w : World) : World :=
  mkWorld (db w) (tl (faults w)) (log w ++ [s]) (now w).

Definition send (s : Stmt) : M (option error) :=
  fun w => Returned (sent s w) (answer w).

Definition tables : M DB := fun w => Returned w (db w).

Definition clock : M Z := fun w => Returned w (now w).

Definition store (d : DB) : M unit :=
  fun w => Returned (mkWorld d (faults w) (log w) (now w)) tt.

(** ** What the engine does with each statement *)

(** INSERT INTO needs ... RETURNING id: the row takes the next value of
    the sequence, created_at is now() and updated_at is null. *)
Definition insert_need (t : Z) (d : DB) (c o : Z) (ti de : string) (rq rc : Z)
    (du : option Z) (st : needStatus) (un : string) : DB * Z :=
  let i := needs_id_seq d in
  (mkDB (needs d ++ [mkNeedRow i c o ti de rq rc du st un t None])
        (needs_images d) (categories d) (organizations d)
        (i + 1) (needs_images_id_seq d),
   i).

(** UPDATE needs SET ... WHERE id = $9, on one row. *)
Definition update_row (t : Z) (c : Z) (ti de : string) (rq rc : Z)
    (du : option Z) (un : string) (st : needStatus) (i : Z) (r : NeedRow) : NeedRow :=
  if id r =? i
  then mkNeedRow (id r) c (organization_id r) ti de rq rc du st un (created_at r) (Some t)
  else r.

(** The statement on the table, with the number of rows it affected. *)
Definition update_need (t : Z) (d : DB) (c : Z) (ti de : string) (rq rc : Z)
    (du : option Z) (un : string) (st : needStatus) (i : Z) : DB * Z :=
  (mkDB (map (update_row t c ti de rq rc du un st i) (needs d))
        (needs_images d) (categories d) (organizations d)
        (needs_id_seq d) (needs_images_id_seq d),
   Z.of_nat (List.length (filter (fun r => id r =? i) (needs d)))).

(** INSERT INTO needs_images ... RETURNING id *)
Definition insert_needs_images (d : DB) (n : Z) (na ur : string) : DB * Z :=
  let i := needs_images_id_seq d in
  (mkDB (needs d) (needs_images d ++ [mkNeedImage i n (mkImage na ur)])
        (categories d) (organizations d) (needs_id_seq d) (i + 1),
   i).

(** DELETE FROM needs_images WHERE id = $1 AND need_id = $2 *)
Definition delete_matches (i n : Z) (r : NeedImage) : bool :=
  (NeedImage_ID r =? i) && (NeedID r =? n).

Definition delete_needs_images (d : DB) (i n : Z) : DB * Z :=
  (mkDB (needs d) (filter (fun r => negb (delete_matches i n r)) (needs_images d))
        (categories d) (organizations d) (needs_id_seq d) (needs_images_id_seq d),
   Z.of_nat (List.length (filter (delete_matches i n) (needs_images d)))).

(** *** ORDER BY *)

Inductive Column : Type := col_id | col_updated_at | col_created_at.
Inductive Direction : Type := asc | desc.

Definition column_name (c : Column) : string :=
  match c with
  | col_id => "id"
  | col_updated_at => "updated_at"
  | col_created_at => "created_at"
  end.

Definition direction_name (d : Direction) : string :=
  match d with asc => "asc" | desc => "desc" end.

(** fmt.Sprintf("ORDER BY %s %s ", orderBy, order) *)
Definition order_by_clause (orderBy order : string) : string :=
  ("ORDER BY " ++ orderBy ++ " " ++ order ++ " ")%string.

Definition orderings : list (Column * Direction) :=
  [ (col_id, asc); (col_id, desc);
    (col_updated_at, asc); (col_updated_at, desc);
    (col_created_at, asc); (col_created_at, desc) ].

(** How the engine reads the filter of the listing query: the empty text
    asks for no ordering, an ORDER BY clause on a column of needs for
    that ordering; any other text is refused. *)
Definition parse_filter (f : string) : option (option (Column * Direction)) :=
  if (f =? "")%string then Some None
  else
    match find (fun cd => (f =? order_by_clause (column_name (fst cd)) (direction_name (snd cd)))%string)
               orderings with
    | Some cd => Some (Some cd)
    | None => None
    end.

(** The sort key of a row; a null updated_at sorts as larger than every
    value. *)
Definition key_leb (c : Column) (a b : NeedRow) : bool :=
  match c with
  | col_id => id a <=? id b
  | col_created_at => created_at a <=? created_at b
  | col_updated_at =>
      match updated_at a, updated_at b with
      | _, None => true
      | None, Some _ => false
      | Some x, Some y => x <=? y
      end
  end.

Definition row_leb (cd : Column * Direction) (a b : NeedRow) : bool :=
  match snd cd with
  | asc => key_leb (fst cd) a b
  | desc => key_leb (fst cd) b a
  end.

Fixpoint insert_sorted (leb : NeedRow -> NeedRow -> bool) (x : NeedRow)
    (l : list NeedRow) : list NeedRow :=
  match l with
  | [] => [x]
  | y :: l' => if leb x y then x :: l else y :: insert_sorted leb x l'
  end.

Definition sort_rows (leb : NeedRow -> NeedRow -> bool) (l : list NeedRow) : list NeedRow :=
  fold_right (insert_sorted leb) [] l.

Definition order_rows (o : option (Column * Direction)) (l : list NeedRow) : list NeedRow :=
  match o with
  | None => l
  | Some cd => sort_rows (row_leb cd) l
  end.

(** *** Running a statement *)

(** What the engine answers: the rows of a query, by table; the values of
    a RETURNING clause; or the number of rows a statement affected. *)
Inductive Reply : Type :=
| NeedRows (l : list NeedRow)
| ImageRows (l : list NeedImage)
| CategoryRows (l : list Category)
| OrganizationRows (l : list BaseOrganization)
| Returning (l : list Z)
| Affected (k : Z).

(** The text of the listing query up to its filter. *)
Definition listing_head : string := "SELECT * FROM needs WHERE organization_id = $1 ".

Definition parse_listing (sql : string) : option (option (Column * Direction)) :=
  if String.prefix listing_head sql
  then parse_filter (substring (String.length listing_head)
                               (String.length sql - String.length listing_head) sql)
  else None.

Definition execute (t : Z) (s : Stmt) (d : DB) : DB * (Reply + error) :=
  match s with
  | SelectNeed i =>
      (d, inl (NeedRows (filter (fun r => id r =? i) (needs d))))
  | SelectNeedsImages n =>
      (d, inl (ImageRows (filter (fun r => NeedID r =? n) (needs_images d))))
  | SelectCategory i =>
      (d, inl (CategoryRows (filter (fun r => Category_ID r =? i) (categories d))))
  | SelectOrganization i =>
      (d, inl (OrganizationRows (filter (fun r => Organization_ID r =? i) (organizations d))))
  | InsertNeed c o ti de rq rc du st un =>
      let (d', i) := insert_need t d c o ti de rq rc du st un in
      (d', inl (Returning [i]))
  | UpdateNeed c ti de rq rc du un st i =>
      let (d', k) := update_need t d c ti de rq rc du un st i in
      (d', inl (Affected k))
  | InsertNeedsImages n na ur =>
      let (d', i) := insert_needs_images d n na ur in
      (d', inl (Returning [i]))
  | DeleteNeedsImages i n =>
      let (d', k) := delete_needs_images d i n in
      (d', inl (Affected k))
  | SelectOrganizationNeeds sql o =>
      match parse_listing sql with
      | Some ord =>
          (d, inl (NeedRows (order_rows ord
                     (filter (fun r => organization_id r =? o) (needs d)))))
      | None => (d, inr (DriverError "syntax error"))
      end
  end.

(** A statement goes to the driver; unless the driver fails it, the
    engine runs it on the tables. *)
Definition run (s : Stmt) : M (Reply + error) :=
  err <- send s;;
  match err with
  | Some e => ret (inr e)
  | None =>
      d <- tables;;
      t <- clock;;
      let (d', r) := execute t s d in
      _ <- store d';;
      ret r
  end.

(** ** The connection handle (database/sql and sqlx) *)

Module sqlx.

Definition mismatch : error := DriverError "scan: unexpected result".

(** [db.Exec]: the result (rows affected) and the error. *)
Definition Exec (s : Stmt) : M (Z * option error) :=
  r <- run s;;
  match r with
  | inl (Affected k) => ret (k, None)
  | inl _ => ret (0, None)
  | inr e => ret (0, Some e)
  end.

(** [db.QueryRow(...).Scan(&dest)] on one integer column: the first
    row, [sql.ErrNoRows] when there is none; [dest] keeps its value on
    error. *)
Definition QueryRowScan (s : Stmt) (dest : Z) : M (Z * option error) :=
  r <- run s;;
  match r with
  | inl (Returning (i :: _)) => ret (i, None)
  | inl (Returning []) => ret (dest, Some ErrNoRows)
  | inl _ => ret (dest, Some mismatch)
  | inr e => ret (dest, Some e)
  end.

(** Scanning a row of needs sets the fields that are columns. *)
Definition scanNeed (dest : Need) (r : NeedRow) : Need :=
  mkNeed (id r) (category_id r) (organization_id r) (title r) (description r)
    (required_qtd r) (reached_qtd r) (due_date r) (status r) (unit_ r)
    (created_at r) (updated_at r) (Images dest) (Category_ dest) (Organization dest).

(** [db.Get(dest, ...)]: the first row, [sql.ErrNoRows] when there is
    none. *)
Definition GetNeed (dest : Need) (s : Stmt) : M (Need * option error) :=
  r <- run s;;
  match r with
  | inl (NeedRows (x :: _)) => ret (scanNeed dest x, None)
  | inl (NeedRows []) => ret (dest, Some ErrNoRows)
  | inl _ => ret (dest, Some mismatch)
  | inr e => ret (dest, Some e)
  end.

Definition GetCategory (dest : Category) (s : Stmt) : M (Category * option error) :=
  r <- run s;;
  match r with
  | inl (CategoryRows (x :: _)) => ret (x, None)
  | inl (CategoryRows []) => ret (dest, Some ErrNoRows)
  | inl _ => ret (dest, Some mismatch)
  | inr e => ret (dest, Some e)
  end.

Definition GetOrganization (dest : BaseOrganization) (s : Stmt)
    : M (BaseOrganization * option error) :=
  r <- run s;;
  match r with
  | inl (OrganizationRows (x :: _)) => ret (x, None)
  | inl (OrganizationRows []) => ret (dest, Some ErrNoRows)
  | inl _ => ret (dest, Some mismatch)
  | inr e => ret (dest, Some e)
  end.

(** [db.Select(&dest, ...)]: every row, appended to [dest]. *)
Definition SelectNeeds (dest : list Need) (s : Stmt) : M (list Need * option error) :=
  r <- run s;;
  match r with
  | inl (NeedRows l) => ret (dest ++ map (scanNeed zeroNeed) l, None)
  | inl _ => ret (dest, Some mismatch)
  | inr e => ret (dest, Some e)
  end.

Definition SelectNeedImages (dest : list NeedImage) (s : Stmt)
    : M (list NeedImage * option error) :=
  r <- run s;;
  match r with
  | inl (ImageRows l) => ret (dest ++ l, None)
  | inl _ => ret (dest, Some mismatch)
  | inr e => ret (dest, Some e)
  end.

End sqlx.

(** ** Package errors and package fmt *)

Definition errors_New (msg : string) : error := errorString msg.

Module fmt.

Inductive arg : Type := int (z : Z) | str (s : string).

(** The verbs [%d] and [%s]; an operand that is missing or of the other
    kind prints as Go's [%!] marker (no call of need.go does that). *)
Fixpoint Sprintf (format : string) (a : list arg) {struct format} : string :=
  match format with
  | EmptyString => EmptyString
  | String "%" (String "d" rest) =>
      match a with
      | int z :: a' => (strings.itoa z ++ Sprintf rest a')%string
      | _ :: a' => ("%!d" ++ Sprintf rest a')%string
      | [] => ("%!d(MISSING)" ++ Sprintf rest [])%string
      end
  | String "%" (String "s" rest) =>
      match a with
      | str s :: a' => (s ++ Sprintf rest a')%string
      | _ :: a' => ("%!s" ++ Sprintf rest a')%string
      | [] => ("%!s(MISSING)" ++ Sprintf rest [])%string
      end
  | String c rest => String c (Sprintf rest a)
  end.

Definition Errorf (format : string) (a : list arg) : error :=
  errorString (Sprintf format a).

End fmt.

(** ** The collaborators *)

Module catRepo.

(** Modelled from the spec: CategoryRepository.Get is not under src/.
    Its contract is [Get(id) -> (summary, error)]: the category of that
    identifier, [sql.ErrNoRows] when there is none, the driver's error
    otherwise. *)
Definition Get (i : Z) : M (Category * option error) :=
  sqlx.GetCategory zeroCategory (SelectCategory i).

End catRepo.

Module orgRepo.

(** Modelled from the spec: OrganizationRepository.GetBaseOrganization
    is not under src/.  Same contract as the category lookup; the
    result is a pointer, nil ([None]) when the lookup fails. *)
Definition GetBaseOrganization (i : Z) : M (option BaseOrganization * option error) :=
  '(o, err) <- sqlx.GetOrganization zeroOrganization (SelectOrganization i);;
  match err with
  | Some e => ret (None, Some e)
  | None => ret (Some o, None)
  end.

End orgRepo.

(** ** NeedRepository *)

(** The receiver [r] holds the connection handle and the two
    collaborators built on the same handle; here the handle is the world
    that the monad threads. *)

(** getNeedImages without the need data *)
Definition getNeedImages (n : Need) : M (list NeedImage * option error) :=
  let images : list NeedImage := [] in
  '(images, err) <- sqlx.SelectNeedImages images (SelectNeedsImages (ID n));;
  match err with
  | Some e => ret ([], Some e)
  | None => ret (images, None)
  end.

(** Get one Need from database.  The result is a pointer: [None] is nil. *)
Definition Get (i : Z) : M (option Need * option error) :=
  let n := zeroNeed in
  '(n, err) <- sqlx.GetNeed n (SelectNeed i);;
  match err with
  | Some e => ret (None, Some e)
  | None =>
      '(images, err) <- getNeedImages n;;
      let n := set_Images n images in
      '(c, err) <- catRepo.Get (CategoryID n);;
      let n := set_Category n c in
      '(o, err) <- orgRepo.GetBaseOrganization (OrganizationID n);;
      match o with
      | None => panic "invalid memory address or nil pointer dereference"
      | Some o' =>
          let n := set_Organization n o' in
          ret (Some n, None)
      end
  end.

(** GetNeedsImages retrive the images of a Need *)
Definition GetNeedsImages (n : Need) : M (list NeedImage * option error) :=
  getNeedImages n.

Definition validate (n : Need) : M (Need * option error) :=
  let n := set_Title n (strings.TrimSpace (Title n)) in
  if strings.len (Title n) =? 0
  then ret (n, Some (errors_New "Deve ser informado um título para a Necessidade"))
  else
    '(_, err) <- catRepo.Get (CategoryID n);;
    match err with
    | Some ErrNoRows =>
        ret (n, Some (fmt.Errorf "Não foi encontrada categoria com ID: %d"
                        [fmt.int (CategoryID n)]))
    | Some e => ret (n, Some e)
    | None =>
        '(_, err) <- orgRepo.GetBaseOrganization (OrganizationID n);;
        match err with
        | Some ErrNoRows =>
            ret (n, Some (fmt.Errorf "Não foi encontrada Organização com ID: %d"
                            [fmt.int (OrganizationID n)]))
        | Some e => ret (n, Some e)
        | None => ret (n, None)
        end
    end.

(** Create creates a new need based on the struct *)
Definition Create (n : Need) : M (Need * option error) :=
  '(n, err) <- validate n;;
  match err with
  | Some e => ret (n, Some e)
  | None =>
      let n := set_Status n NeedStatusActive in
      '(i, err) <- sqlx.QueryRowScan
                     (InsertNeed (CategoryID n) (OrganizationID n) (Title n)
                        (Description n) (RequiredQuantity n) (ReachedQuantity n)
                        (DueDate n) (Status n) (Unit n))
                     (ID n);;
      let n := set_ID n i in
      match err with
      | Some e => ret (n, Some e)
      | None => ret (n, None)
      end
  end.

(** Update - Receive a Need and update it in the database, returning the
    updated Need or error if failed *)
Definition Update (n : Need) : M (Need * option error) :=
  '(n, err) <- validate n;;
  match err with
  | Some e => ret (n, Some e)
  | None =>
      '(_, err) <- sqlx.Exec
                     (UpdateNeed (CategoryID n) (Title n) (Description n)
                        (RequiredQuantity n) (ReachedQuantity n) (DueDate n)
                        (Unit n) (Status n) (ID n));;
      match err with
      | Some e => ret (n, Some e)
      | None => ret (n, None)
      end
  end.

(** CreateImage creates a new need image based on the struct *)
Definition CreateImage (i : NeedImage) : M (NeedImage * option error) :=
  '(k, err) <- sqlx.QueryRowScan
                 (InsertNeedsImages (NeedID i) (Name (NeedImage_Image i))
                    (URL (NeedImage_Image i)))
                 (NeedImage_ID i);;
  let i := set_NeedImage_ID i k in
  match err with
  | Some e => ret (i, Some e)
  | None => ret (i, None)
  end.

(** DeleteImage delete a image from a need *)
Definition DeleteImage (imageID needID : Z) : M (option error) :=
  '(_, err) <- sqlx.Exec (DeleteNeedsImages imageID needID);;
  ret err.

(** The first block of GetOrganizationNeeds: the text of the filter, or
    the error on the direction. *)
Definition orderFilter (orderBy order : string) : string + error :=
  let filter := "" in
  if 0 <? strings.len orderBy then
    let orderBy :=
      if ((orderBy =? "id") || (orderBy =? "updated_at"))%string
      then orderBy else "created_at" in
    if 0 <? strings.len order then
      if (negb (order =? "asc") && negb (order =? "desc"))%string
      then inr (fmt.Errorf "Método de ordenação não reconhecido" [])
      else inl (fmt.Sprintf "ORDER BY %s %s " [fmt.str orderBy; fmt.str order])
    else
      let order := "asc" in
      inl (fmt.Sprintf "ORDER BY %s %s " [fmt.str orderBy; fmt.str order])
  else inl filter.

(** The loop of GetOrganizationNeeds over the fetched needs. *)
Fixpoint enrich (oNeeds : list Need) : M (list Need * option error) :=
  match oNeeds with
  | [] => ret ([], None)
  | n :: rest =>
      '(c, err) <- catRepo.Get (CategoryID n);;
      let n := set_Category n c in
      match err with
      | Some e => ret ([], Some e)
      | None =>
          '(images, err) <- getNeedImages n;;
          let n := set_Images n images in
          match err with
          | Some e => ret ([], Some e)
          | None =>
              '(rest', err) <- enrich rest;;
              match err with
              | Some e => ret ([], Some e)
              | None => ret (n :: rest', None)
              end
          end
      end
  end.

(** GetOrganizationNeeds return all needs from an organization *)
Definition GetOrganizationNeeds (oID : Z) (orderBy order : string)
    : M (list Need * option error) :=
  match orderFilter orderBy order with
  | inr e => ret ([], Some e)
  | inl filter =>
      let sqlNeeds :=
        fmt.Sprintf "SELECT * FROM needs WHERE organization_id = $1 %s" [fmt.str filter] in
      let oNeeds : list Need := [] in
      '(oNeeds, err) <- sqlx.SelectNeeds oNeeds (SelectOrganizationNeeds sqlNeeds oID);;
      match err with
      | Some e => ret ([], Some e)
      | None => enrich oNeeds
      end
  end.

(** ** A small database to run the code on *)

Module Sample.

Definition food : Category := mkCategory 1 "Alimentos".
Definition shelter : BaseOrganization := mkBaseOrganization 7 "Abrigo".

Definition rice : NeedRow :=
  mkNeedRow 1 1 7 "Arroz" "5kg" 10 2 (Some 1700000000) NeedStatusActive "kg" 1600000300 None.
Definition beans : NeedRow :=
  mkNeedRow 2 1 7 "Feijao" "1kg" 20 0 None NeedStatusInactive "kg" 1600000100 (Some 1600000500).
(** A row whose organization has no row of its own. *)
Definition stray : NeedRow :=
  mkNeedRow 3 1 8 "Leite" "" 5 0 None NeedStatusActive "l" 1600000200 None.

Definition photo (i n : Z) : NeedImage := mkNeedImage i n (mkImage "foto.png" "http://img/foto.png").

Definition d0 : DB :=
  mkDB [rice; beans; stray] [photo 1 1; photo 2 2; photo 3 1] [food] [shelter] 4 4.

(** No failure of the driver in store. *)
Definition w0 : World := mkWorld d0 [] [] 1700000000.

(** The driver fails the statement number [k] (from 0) with [e]. *)
Definition failing (k : nat) (e : error) : World :=
  mkWorld d0 (repeat None k ++ [Some e]) [] 1700000000.

Definition blanket : Need :=
  mkNeed 99 1 7 "  Cobertor  " "de casal" 30 0 (Some 1800000000)
    NeedStatusInactive "un" 5 (Some 6) [] zeroCategory zeroOrganization.

(** Needs that validation refuses: a blank title, a category and an
    organization that have no row. *)
Definition blank : Need := set_Title blanket "   ".

Definition uncategorized : Need :=
  mkNeed 0 5 7 "Cobertor" "" 30 0 None NeedStatusActive "un" 0 None []
    zeroCategory zeroOrganization.

Definition orphan : Need :=
  mkNeed 0 1 8 "Cobertor" "" 30 0 None NeedStatusActive "un" 0 None []
    zeroCategory zeroOrganization.

(** A need whose identifier no row has. *)
Definition absent : Need := set_ID (set_Title blanket "Cobertor") 99.

(** A world without the stray row: every need refers to rows that are
    there. *)
Definition tidy : World :=
  mkWorld (mkDB [rice; beans] [photo 1 1; photo 2 2] [food] [shelter] 3 3) [] [] 1700000000.

End Sample.

(** ** Vocabulary of the statements below *)

(** The driver fails none of the next [k] statements. *)
Definition quiet (k : nat) (w : World) : bool :=
  forallb (fun f => match f with None => true | Some _ => false end)
          (firstn k (faults w)).

(** No statement of [l] writes. *)
Definition reads_only (l : list Stmt) : bool :=
  forallb (fun s => negb (is_write s)) l.

(** Every identifier of table needs was drawn from its sequence. *)
Definition needs_id_fresh (d : DB) : bool :=
  forallb (fun r => id r <? needs_id_seq d) (needs d).

(** The rows a statement's WHERE clause selects. *)
Definition needs_with_id (d : DB) (i : Z) : list NeedRow :=
  filter (fun r => id r =? i) (needs d).

Definition lookup_category (d : DB) (i : Z) : Category * option error :=
  match filter (fun r => Category_ID r =? i) (categories d) with
  | x :: _ => (x, None)
  | [] => (zeroCategory, Some ErrNoRows)
  end.

Definition lookup_organization (d : DB) (i : Z) : option BaseOrganization * option error :=
  match filter (fun r => Organization_ID r =? i) (organizations d) with
  | x :: _ => (Some x, None)
  | [] => (None, Some ErrNoRows)
  end.

(** The errors of the validation helper and of the listing, as need.go
    builds them. *)
Definition title_required : error :=
  errors_New "Deve ser informado um título para a Necessidade".

Definition category_not_found (i : Z) : error :=
  fmt.Errorf "Não foi encontrada categoria com ID: %d" [fmt.int i].

Definition organization_not_found (i : Z) : error :=
  fmt.Errorf "Não foi encontrada Organização com ID: %d" [fmt.int i].

Definition direction_not_recognized : error :=
  fmt.Errorf "Método de ordenação não reconhecido" [].

Definition nil_dereference : string :=
  "invalid memory address or nil pointer dereference".

(** What validation makes of a lookup's error. *)
Definition friendly (not_found : error) (e : error) : error :=
  match e with
  | ErrNoRows => not_found
  | _ => e
  end.

(** The business fields of a need. *)
Definition business (n : Need) : string * string * Z * Z * option Z * string :=
  (Title n, Description n, RequiredQuantity n, ReachedQuantity n, DueDate n, Unit n).

(** The organization each row of needs refers to. *)
Definition owners (d : DB) : list (Z * Z) :=
  map (fun r => (id r, organization_id r)) (needs d).

(** What a lookup of the validation helper reports in a world. *)
Definition category_error (w : World) (i : Z) : option error :=
  match catRepo.Get i w with
  | Returned _ (_, e) => e
  | Panicked _ _ => None
  end.

Definition organization_error (w : World) (i : Z) : option error :=
  match orgRepo.GetBaseOrganization i w with
  | Returned _ (_, e) => e
  | Panicked _ _ => None
  end.

(** The statement that Create sends for a validated need. *)
Definition insert_of (m : Need) : Stmt :=
  InsertNeed (CategoryID m) (OrganizationID m) (Title m) (Description m)
    (RequiredQuantity m) (ReachedQuantity m) (DueDate m) NeedStatusActive (Unit m).

(** The statement that Update sends for a validated need. *)
Definition update_of (m : Need) : Stmt :=
  UpdateNeed (CategoryID m) (Title m) (Description m) (RequiredQuantity m)
    (ReachedQuantity m) (DueDate m) (Unit m) (Status m) (ID m).

(** The statements a computation sent, given the world it started in. *)
Definition sent_by {A} (w : World) (o : outcome A) : list Stmt :=
  skipn (List.length (log w)) (log (final o)).

(** The identifiers of the needs a listing returned, in their order. *)
Definition listed (o : outcome (list Need * option error)) : option (list Z) :=
  match o with
  | Returned _ (l, None) => Some (map ID l)
  | _ => None
  end.

(** The column the listing orders by for a requested column that is not
    empty. *)
Definition effective_column (orderBy : string) : string :=
  if ((orderBy =? "id") || (orderBy =? "updated_at"))%string then orderBy else "created_at".

From Stdlib Require Import Sorted Permutation.

(** ** Vocabulary of the further properties *)

(** The image rows of a need, in the order of the table. *)
Definition images_of (d : DB) (i : Z) : list NeedImage :=
  filter (fun r => NeedID r =? i) (needs_images d).

(** The rows of needs of an organization, in the order of the table. *)
Definition needs_of (d : DB) (o : Z) : list NeedRow :=
  filter (fun r => organization_id r =? o) (needs d).

(** What the loop of the listing makes of a fetched need when its two
    lookups succeed. *)
Definition enriched (d : DB) (n : Need) : Need :=
  set_Images (set_Category n (fst (lookup_category d (CategoryID n))))
             (images_of d (ID n)).

(** The two statements the loop of the listing sends for a need. *)
Definition enrichment_of (n : Need) : list Stmt :=
  [SelectCategory (CategoryID n); SelectNeedsImages (ID n)].

(** The filters that the listing can build, and the texts it can send. *)
Definition filters : list string :=
  "" :: map (fun cd => order_by_clause (column_name (fst cd)) (direction_name (snd cd)))
            orderings.

Definition listing_texts : list string :=
  map (fun f => (listing_head ++ f)%string) filters.

(** A row of needs has a title and refers to a category and to an
    organization that have a row. *)
Definition sound_row (d : DB) (r : NeedRow) : bool :=
  negb (title r =? "")%string
  && existsb (fun c => Category_ID c =? category_id r) (categories d)
  && existsb (fun o => Organization_ID o =? organization_id r) (organizations d).

Definition sound (d : DB) : bool := forallb (sound_row d) (needs d).

(** Everything of the tables but the rows of needs. *)
Definition beside_needs (d : DB) : list NeedImage * list Category * list BaseOrganization * Z :=
  (needs_images d, categories d, organizations d, needs_images_id_seq d).

(** The order of two needs on a column, as [key_leb] has it on rows, and
    a list of needs in the order of a column and a direction. *)
Definition need_leb (cd : Column * Direction) (a b : Need) : bool :=
  let leb x y :=
    match fst cd with
    | col_id => ID x <=? ID y
    | col_created_at => CreatedAt x <=? CreatedAt y
    | col_updated_at =>
        match UpdatedAt x, UpdatedAt y with
        | _, None => true
        | None, Some _ => false
        | Some u, Some v => u <=? v
        end
    end in
  match snd cd with
  | asc => leb a b
  | desc => leb b a
  end.

Definition in_order (cd : Column * Direction) (l : list Need) : Prop :=
  Sorted (fun a b => need_leb cd a b = true) l.

(** The bytes at the head of [s] are a white space rune, as [dropSpace]
    tests it. *)
Definition droppable (back : bool) (s : list ascii) : bool :=
  match s with
  | [] => false
  | c0 :: s1 =>
      strings.asciiSpace c0 ||
      match s1 with
      | [] => false
      | c1 :: s2 =>
          (if back then strings.space2 c1 c0 else strings.space2 c0 c1) ||
          match s2 with
          | [] => false
          | c2 :: _ => if back then strings.space3 c2 c1 c0 else strings.space3 c0 c1 c2
          end
      end
  end.

(** ** How a statement runs *)

Lemma run_eq (s : Stmt) (w : World) :
  run s w =
  match answer w with
  | Some e => Returned (sent s w) (inr e)
  | None =>
      Returned (mkWorld (fst (execute (now w) s (db w))) (tl (faults w))
                        (log w ++ [s]) (now w))
               (snd (execute (now w) s (db w)))
  end.
Proof.
  unfold run, bind, send, tables, clock, store, ret.
  destruct (answer w) as [e|]; [reflexivity|].
  cbn. destruct (execute (now w) s (db w)); reflexivity.
Qed.

Lemma execute_read (t : Z) (s : Stmt) (d : DB) :
  is_write s = false -> fst (execute t s d) = d.
Proof.
  destruct s; cbn; intros H; try reflexivity; try discriminate.
  destruct (parse_listing sql); reflexivity.
Qed.

Lemma run_read (s : Stmt) (w : World) :
  is_write s = false ->
  run s w =
  Returned (sent s w)
    (match answer w with
     | Some e => inr e
     | None => snd (execute (now w) s (db w))
     end).
Proof.
  intros H. rewrite run_eq. destruct (answer w); [reflexivity|].
  rewrite (execute_read _ _ _ H). reflexivity.
Qed.

Lemma catRepo_Get_eq (i : Z) (w : World) :
  catRepo.Get i w =
  Returned (sent (SelectCategory i) w)
    (match answer w with
     | Some e => (zeroCategory, Some e)
     | None => lookup_category (db w) i
     end).
Proof.
  unfold catRepo.Get, sqlx.GetCategory, bind.
  rewrite run_read by reflexivity.
  unfold lookup_category. destruct (answer w); cbn; [reflexivity|].
  destruct (filter _ (categories (db w))); reflexivity.
Qed.

Lemma orgRepo_GetBaseOrganization_eq (i : Z) (w : World) :
  orgRepo.GetBaseOrganization i w =
  Returned (sent (SelectOrganization i) w)
    (match answer w with
     | Some e => (None, Some e)
     | None => lookup_organization (db w) i
     end).
Proof.
  unfold orgRepo.GetBaseOrganization, sqlx.GetOrganization, bind.
  rewrite run_read by reflexivity.
  unfold lookup_organization. destruct (answer w); cbn; [reflexivity|].
  destruct (filter _ (organizations (db w))); reflexivity.
Qed.

Lemma getNeedImages_eq (n : Need) (w : World) :
  getNeedImages n w =
  Returned (sent (SelectNeedsImages (ID n)) w)
    (match answer w with
     | Some e => ([], Some e)
     | None => (filter (fun r => NeedID r =? ID n) (needs_images (db w)), None)
     end).
Proof.
  unfold getNeedImages, sqlx.SelectNeedImages, bind.
  rewrite run_read by reflexivity.
  destruct (answer w); reflexivity.
Qed.

Lemma GetNeed_eq (dest : Need) (i : Z) (w : World) :
  sqlx.GetNeed dest (SelectNeed i) w =
  Returned (sent (SelectNeed i) w)
    (match answer w with
     | Some e => (dest, Some e)
     | None =>
         match needs_with_id (db w) i with
         | x :: _ => (sqlx.scanNeed dest x, None)
         | [] => (dest, Some ErrNoRows)
         end
     end).
Proof.
  unfold sqlx.GetNeed, bind, needs_with_id.
  rewrite run_read by reflexivity.
  destruct (answer w); cbn; [reflexivity|].
  destruct (filter _ (needs (db w))); reflexivity.
Qed.

Lemma category_error_eq (w : World) (i : Z) :
  category_error w i =
  match answer w with
  | Some e => Some e
  | None => snd (lookup_category (db w) i)
  end.
Proof.
  unfold category_error. rewrite catRepo_Get_eq.
  destruct (answer w); [reflexivity|]. destruct (lookup_category (db w) i); reflexivity.
Qed.

Lemma organization_error_eq (w : World) (i : Z) :
  organization_error w i =
  match answer w with
  | Some e => Some e
  | None => snd (lookup_organization (db w) i)
  end.
Proof.
  unfold organization_error. rewrite orgRepo_GetBaseOrganization_eq.
  destruct (answer w); [reflexivity|]. destruct (lookup_organization (db w) i); reflexivity.
Qed.

(** The validation helper, step by step. *)
Lemma validate_eq (n : Need) (w : World) :
  let n' := set_Title n (strings.TrimSpace (Title n)) in
  let w1 := sent (SelectCategory (CategoryID n)) w in
  let w2 := sent (SelectOrganization (OrganizationID n)) w1 in
  validate n w =
  if strings.len (Title n') =? 0 then Returned w (n', Some title_required)
  else
    match category_error w (CategoryID n) with
    | Some e => Returned w1 (n', Some (friendly (category_not_found (CategoryID n)) e))
    | None =>
        match organization_error w1 (OrganizationID n) with
        | Some e =>
            Returned w2 (n', Some (friendly (organization_not_found (OrganizationID n)) e))
        | None => Returned w2 (n', None)
        end
    end.
Proof.
  intros n' w1 w2. unfold validate. fold n'.
  destruct (strings.len (Title n') =? 0); [reflexivity|].
  unfold bind. change (CategoryID n') with (CategoryID n).
  change (OrganizationID n') with (OrganizationID n).
  unfold category_error, organization_error.
  rewrite catRepo_Get_eq. fold w1.
  destruct (match answer w with Some e => _ | None => _ end) as [c [e|]].
  - destruct e; reflexivity.
  - rewrite orgRepo_GetBaseOrganization_eq. fold w2.
    destruct (match answer w1 with Some e => _ | None => _ end) as [o [e|]].
    + destruct e; reflexivity.
    + reflexivity.
Qed.

Lemma validate_returns (n : Need) (w : World) :
  exists w' e l,
    validate n w = Returned w' (set_Title n (strings.TrimSpace (Title n)), e) /\
    db w' = db w /\ now w' = now w /\
    log w' = log w ++ l /\ reads_only l = true.
Proof.
  pose proof (validate_eq n w) as H. cbv zeta in H. rewrite H; clear H.
  destruct (strings.len _ =? 0).
  { exists w, (Some title_required), []. rewrite app_nil_r. repeat split. }
  destruct (category_error w (CategoryID n)) as [e|].
  { eexists _, _, [_]. repeat split. }
  destruct (organization_error _ (OrganizationID n)) as [e|].
  - eexists _, _, [SelectCategory (CategoryID n); SelectOrganization (OrganizationID n)].
    repeat split. cbn [sent log]. now rewrite <- app_assoc.
  - eexists _, _, [SelectCategory (CategoryID n); SelectOrganization (OrganizationID n)].
    repeat split. cbn [sent log]. now rewrite <- app_assoc.
Qed.

Lemma Create_eq (n : Need) (w : World) :
  Create n w =
  match validate n w with
  | Returned w' (m, Some e) => Returned w' (m, Some e)
  | Returned w' (m, None) =>
      match answer w' with
      | Some e => Returned (sent (insert_of m) w') (set_Status m NeedStatusActive, Some e)
      | None =>
          Returned (mkWorld (fst (execute (now w') (insert_of m) (db w')))
                            (tl (faults w')) (log w' ++ [insert_of m]) (now w'))
                   (set_ID (set_Status m NeedStatusActive) (needs_id_seq (db w')), None)
      end
  | Panicked w' msg => Panicked w' msg
  end.
Proof.
  unfold Create, bind at 1.
  destruct (validate n w) as [w' [m [e|]]|]; try reflexivity.
  unfold bind, sqlx.QueryRowScan, bind. cbn [Status set_Status CategoryID OrganizationID
    Title Description RequiredQuantity ReachedQuantity DueDate Unit ID].
  fold (insert_of m). rewrite run_eq.
  destruct (answer w') as [e|]; cbn.
  - destruct m; reflexivity.
  - reflexivity.
Qed.

Lemma Update_eq (n : Need) (w : World) :
  Update n w =
  match validate n w with
  | Returned w' (m, Some e) => Returned w' (m, Some e)
  | Returned w' (m, None) =>
      match answer w' with
      | Some e => Returned (sent (update_of m) w') (m, Some e)
      | None =>
          Returned (mkWorld (fst (execute (now w') (update_of m) (db w')))
                            (tl (faults w')) (log w' ++ [update_of m]) (now w'))
                   (m, None)
      end
  | Panicked w' msg => Panicked w' msg
  end.
Proof.
  unfold Update, bind at 1.
  destruct (validate n w) as [w' [m [e|]]|]; try reflexivity.
  unfold bind, sqlx.Exec, bind. fold (update_of m). rewrite run_eq.
  destruct (answer w') as [e|]; reflexivity.
Qed.

Lemma len_zero (s : string) : (strings.len s =? 0) = true <-> s = "".
Proof.
  unfold strings.len. destruct s; cbn [String.length]; split; intros H;
    try reflexivity; discriminate.
Qed.

Lemma len_nonzero (s : string) : s <> "" -> (strings.len s =? 0) = false.
Proof.
  intros H. destruct (strings.len s =? 0) eqn:E; [|reflexivity].
  apply len_zero in E. contradiction.
Qed.

(** ** Create *)

(** C1: a need whose trimmed title is not empty and whose category and
    organization lookups report no error is returned by Create with
    status Active, whatever status it came with; the error returned is
    the driver's answer to the INSERT, and when that is nil the need
    carries the identifier the insert drew from the sequence, which is
    the identifier of the one row added, a row holding the need's
    fields. *)
Theorem Create_forces_active (n : Need) (w : World) :
  strings.TrimSpace (Title n) <> "" ->
  category_error w (CategoryID n) = None ->
  organization_error (final (catRepo.Get (CategoryID n) w)) (OrganizationID n) = None ->
  exists w' n',
    Create n w = Returned w' (n', answer (final (validate n w))) /\
    Status n' = NeedStatusActive /\
    (answer (final (validate n w)) = None ->
     ID n' = needs_id_seq (db w) /\
     needs_id_seq (db w') = needs_id_seq (db w) + 1 /\
     needs (db w') =
     needs (db w) ++
     [mkNeedRow (ID n') (CategoryID n) (OrganizationID n)
        (strings.TrimSpace (Title n)) (Description n) (RequiredQuantity n)
        (ReachedQuantity n) (DueDate n) NeedStatusActive (Unit n) (now w) None]).
Proof.
  intros Ht Hc Ho.
  rewrite catRepo_Get_eq in Ho. cbn [final] in Ho.
  rewrite Create_eq.
  pose proof (validate_eq n w) as Hv. cbv zeta in Hv.
  rewrite len_nonzero in Hv by exact Ht. rewrite Hc, Ho in Hv.
  rewrite Hv. cbn [final].
  set (w2 := sent (SelectOrganization (OrganizationID n)) _).
  destruct (answer w2) as [e|] eqn:Ea.
  - eexists _, _. split; [reflexivity|]. split; [reflexivity|]. discriminate.
  - eexists _, _. split; [reflexivity|]. split; [reflexivity|]. intros _.
    repeat split.
Qed.

Lemma Create_forces_active_witness :
  exists w' n',
    Create Sample.blanket Sample.w0 =
      Returned w' (n', answer (final (validate Sample.blanket Sample.w0))) /\
    Status n' = NeedStatusActive /\
    (answer (final (validate Sample.blanket Sample.w0)) = None ->
     ID n' = 4 /\
     needs_id_seq (db w') = 4 + 1 /\
     needs (db w') =
     needs Sample.d0 ++
     [mkNeedRow (ID n') 1 7 "Cobertor" "de casal" 30 0 (Some 1800000000)
        NeedStatusActive "un" 1700000000 None]).
Proof.
  apply (Create_forces_active Sample.blanket Sample.w0).
  - vm_compute. discriminate.
  - reflexivity.
  - reflexivity.
Defined.

(** ** The validation helper *)

Lemma validation_errors_distinct (i j : Z) :
  category_not_found i <> ErrNoRows /\
  organization_not_found j <> ErrNoRows /\
  category_not_found i <> title_required /\
  organization_not_found j <> title_required /\
  category_not_found i <> organization_not_found j.
Proof.
  unfold category_not_found, organization_not_found, title_required, errors_New, fmt.Errorf.
  cbn [fmt.Sprintf].
  repeat split; intros H; discriminate H.
Qed.

(** C2: the validation helper shared by Create and Update trims the
    title and fails with the title error, sending nothing, when it is
    empty; otherwise it looks the category up, turning "no rows" into the
    category error and returning any other error as it is; otherwise it
    looks the organization up in the same way.  The lookups are the only
    statements it sends and the tables are as before.  When it returns an
    error, Create and Update return that error from the same world, so
    no INSERT or UPDATE went out; when it passes, the write is the next
    statement. *)
Theorem validate_precedes_write (n : Need) (w : World) :
  let n' := set_Title n (strings.TrimSpace (Title n)) in
  let w1 := final (catRepo.Get (CategoryID n) w) in
  let w2 := final (orgRepo.GetBaseOrganization (OrganizationID n) w1) in
  (Title n' = "" -> validate n w = Returned w (n', Some title_required)) /\
  (Title n' <> "" ->
   (category_error w (CategoryID n) = Some ErrNoRows ->
    validate n w = Returned w1 (n', Some (category_not_found (CategoryID n)))) /\
   (forall e, e <> ErrNoRows -> category_error w (CategoryID n) = Some e ->
    validate n w = Returned w1 (n', Some e)) /\
   (category_error w (CategoryID n) = None ->
    (organization_error w1 (OrganizationID n) = Some ErrNoRows ->
     validate n w = Returned w2 (n', Some (organization_not_found (OrganizationID n)))) /\
    (forall e, e <> ErrNoRows -> organization_error w1 (OrganizationID n) = Some e ->
     validate n w = Returned w2 (n', Some e)) /\
    (organization_error w1 (OrganizationID n) = None ->
     validate n w = Returned w2 (n', None)))) /\
  (log w1 = log w ++ [SelectCategory (CategoryID n)] /\
   log w2 = log w1 ++ [SelectOrganization (OrganizationID n)] /\
   db w1 = db w /\ db w2 = db w) /\
  (forall w' m e, validate n w = Returned w' (m, Some e) ->
   Create n w = Returned w' (m, Some e) /\
   Update n w = Returned w' (m, Some e) /\
   db w' = db w /\
   exists l, log w' = log w ++ l /\ reads_only l = true) /\
  (forall w' m, validate n w = Returned w' (m, None) ->
   log (final (Create n w)) = log w' ++ [insert_of m] /\
   log (final (Update n w)) = log w' ++ [update_of m]) /\
  (forall i j,
   category_not_found i <> ErrNoRows /\
   organization_not_found j <> ErrNoRows /\
   category_not_found i <> title_required /\
   organization_not_found j <> title_required /\
   category_not_found i <> organization_not_found j).
Proof.
  intros n' w1 w2.
  assert (E1 : w1 = sent (SelectCategory (CategoryID n)) w).
  { unfold w1. rewrite catRepo_Get_eq. reflexivity. }
  assert (E2 : w2 = sent (SelectOrganization (OrganizationID n)) w1).
  { unfold w2. rewrite orgRepo_GetBaseOrganization_eq. reflexivity. }
  pose proof (validate_eq n w) as Hv. cbv zeta in Hv. fold n' in Hv.
  rewrite <- E1, <- E2 in Hv.
  split; [|split; [|split; [|split; [|split]]]].
  - intros Ht. apply len_zero in Ht. rewrite Ht in Hv. exact Hv.
  - intros Ht. apply len_nonzero in Ht. rewrite Ht in Hv.
    split; [|split].
    + intros Hc. rewrite Hc in Hv. exact Hv.
    + intros e Hne Hc. rewrite Hc in Hv. rewrite Hv. destruct e; try reflexivity.
      now contradiction Hne.
    + intros Hc. rewrite Hc in Hv. split; [|split].
      * intros Ho. rewrite Ho in Hv. exact Hv.
      * intros e Hne Ho. rewrite Ho in Hv. rewrite Hv. destruct e; try reflexivity.
        now contradiction Hne.
      * intros Ho. rewrite Ho in Hv. exact Hv.
  - rewrite E2, E1. repeat split.
  - intros w' m e Hw.
    destruct (validate_returns n w) as (w0 & e0 & l & Hr & Hd & _ & Hl & Hro).
    rewrite Hw in Hr. injection Hr as -> _ _.
    rewrite Create_eq, Update_eq, Hw. repeat split; try assumption.
    exists l. split; assumption.
  - intros w' m Hw. rewrite Create_eq, Update_eq, Hw.
    destruct (answer w'); split; reflexivity.
  - exact validation_errors_distinct.
Qed.

Lemma validate_precedes_write_witness :
  validate Sample.blank Sample.w0 =
    Returned Sample.w0 (set_Title Sample.blank "", Some title_required) /\
  validate Sample.uncategorized Sample.w0 =
    Returned (sent (SelectCategory 5) Sample.w0)
             (Sample.uncategorized, Some (category_not_found 5)) /\
  validate Sample.orphan (Sample.failing 0 (DriverError "connection reset")) =
    Returned (sent (SelectCategory 1) (Sample.failing 0 (DriverError "connection reset")))
             (Sample.orphan, Some (DriverError "connection reset")) /\
  validate Sample.orphan Sample.w0 =
    Returned (sent (SelectOrganization 8) (sent (SelectCategory 1) Sample.w0))
             (Sample.orphan, Some (organization_not_found 8)) /\
  Create Sample.orphan Sample.w0 =
    Returned (sent (SelectOrganization 8) (sent (SelectCategory 1) Sample.w0))
             (Sample.orphan, Some (organization_not_found 8)).
Proof.
  split; [|split; [|split; [|split]]].
  - destruct (validate_precedes_write Sample.blank Sample.w0) as (Ha & _).
    apply Ha. reflexivity.
  - destruct (validate_precedes_write Sample.uncategorized Sample.w0) as (_ & Hb & _).
    destruct Hb as (Hb & _); [vm_compute; discriminate|].
    apply Hb. reflexivity.
  - destruct (validate_precedes_write Sample.orphan
                (Sample.failing 0 (DriverError "connection reset"))) as (_ & Hb & _).
    destruct Hb as (_ & Hb & _); [vm_compute; discriminate|].
    apply Hb; [discriminate | reflexivity].
  - destruct (validate_precedes_write Sample.orphan Sample.w0) as (_ & Hb & _).
    destruct Hb as (_ & _ & Hb); [vm_compute; discriminate|].
    destruct Hb as (Hb & _); [reflexivity|].
    apply Hb. reflexivity.
  - destruct (validate_precedes_write Sample.orphan Sample.w0) as (_ & _ & _ & He & _).
    apply He. reflexivity.
Defined.

(** ** Get *)

(** Get after its first statement brought a row: the three enrichment
    calls run whatever the first two return, and only the pointer that
    the last one returns is looked at. *)
Lemma Get_after_fetch (i : Z) (w w1 : World) (n : Need) :
  sqlx.GetNeed zeroNeed (SelectNeed i) w = Returned w1 (n, None) ->
  let w2 := final (getNeedImages n w1) in
  let w3 := final (catRepo.Get (CategoryID n) w2) in
  let w4 := final (orgRepo.GetBaseOrganization (OrganizationID n) w3) in
  exists images e2 c e3 o e4,
    getNeedImages n w1 = Returned w2 (images, e2) /\
    catRepo.Get (CategoryID n) w2 = Returned w3 (c, e3) /\
    orgRepo.GetBaseOrganization (OrganizationID n) w3 = Returned w4 (o, e4) /\
    Get i w =
    match o with
    | None => Panicked w4 nil_dereference
    | Some o' =>
        Returned w4 (Some (set_Organization (set_Category (set_Images n images) c) o'), None)
    end.
Proof.
  intros H.
  assert (T2 : exists w2 images e2, getNeedImages n w1 = Returned w2 (images, e2)).
  { rewrite getNeedImages_eq. destruct (answer w1); eauto. }
  destruct T2 as (w2 & images & e2 & E2). rewrite E2. cbn [final].
  assert (T3 : exists w3 c e3, catRepo.Get (CategoryID n) w2 = Returned w3 (c, e3)).
  { rewrite catRepo_Get_eq. destruct (answer w2); [eauto|].
    destruct (lookup_category (db w2) (CategoryID n)); eauto. }
  destruct T3 as (w3 & c & e3 & E3). rewrite E3. cbn [final].
  assert (T4 : exists w4 o e4,
             orgRepo.GetBaseOrganization (OrganizationID n) w3 = Returned w4 (o, e4)).
  { rewrite orgRepo_GetBaseOrganization_eq. destruct (answer w3); [eauto|].
    destruct (lookup_organization (db w3) (OrganizationID n)); eauto. }
  destruct T4 as (w4 & o & e4 & E4). rewrite E4. cbn [final].
  exists images, e2, c, e3, o, e4. repeat split.
  unfold Get, bind. rewrite H, E2.
  change (CategoryID (set_Images n images)) with (CategoryID n). rewrite E3.
  change (OrganizationID (set_Category (set_Images n images) c)) with (OrganizationID n).
  rewrite E4. destruct o; reflexivity.
Qed.

(** C9: when the fetch of the row succeeds and the lookup of the base
    organization, made after the images and the category were fetched,
    returns an error with a nil pointer, Get panics on the nil pointer:
    the error is not returned. *)
Theorem Get_panics_on_nil_organization (i : Z) (w w1 w4 : World) (n : Need) (e : error) :
  sqlx.GetNeed zeroNeed (SelectNeed i) w = Returned w1 (n, None) ->
  orgRepo.GetBaseOrganization (OrganizationID n)
    (final (catRepo.Get (CategoryID n) (final (getNeedImages n w1)))) =
    Returned w4 (None, Some e) ->
  Get i w = Panicked w4 nil_dereference.
Proof.
  intros H1 H4.
  destruct (Get_after_fetch i w w1 n H1) as (images & e2 & c & e3 & o & e4 & _ & _ & Ho & HG).
  rewrite H4 in Ho. cbn [final] in Ho. injection Ho as <- _.
  rewrite HG, H4. reflexivity.
Qed.

Lemma Get_panics_on_nil_organization_witness :
  Get 3 Sample.w0 =
  Panicked (mkWorld Sample.d0 []
              [SelectNeed 3; SelectNeedsImages 3; SelectCategory 1; SelectOrganization 8]
              1700000000)
           nil_dereference.
Proof.
  apply (Get_panics_on_nil_organization 3 Sample.w0
           (sent (SelectNeed 3) Sample.w0) _
           (sqlx.scanNeed zeroNeed Sample.stray) ErrNoRows).
  - reflexivity.
  - reflexivity.
Defined.

(** C3 (the code on the failing inputs): the driver fails the fetch of
    the images, or the lookup of the category, of need 1; Get goes on
    with the remaining lookups and returns the need with a nil error. *)
Theorem Get_swallows_enrichment_errors :
  Get 1 (Sample.failing 1 (DriverError "connection reset")) =
    Returned
      (mkWorld Sample.d0 []
         [SelectNeed 1; SelectNeedsImages 1; SelectCategory 1; SelectOrganization 7]
         1700000000)
      (Some (set_Organization
               (set_Category (set_Images (sqlx.scanNeed zeroNeed Sample.rice) [])
                  Sample.food)
               Sample.shelter),
       None) /\
  Get 1 (Sample.failing 2 (DriverError "connection reset")) =
    Returned
      (mkWorld Sample.d0 []
         [SelectNeed 1; SelectNeedsImages 1; SelectCategory 1; SelectOrganization 7]
         1700000000)
      (Some (set_Organization
               (set_Category
                  (set_Images (sqlx.scanNeed zeroNeed Sample.rice)
                     [Sample.photo 1 1; Sample.photo 3 1])
                  zeroCategory)
               Sample.shelter),
       None).
Proof. split; reflexivity. Qed.

(** Once the row is fetched, Get returns no error at all. *)
Lemma Get_after_fetch_no_error (i : Z) (w w1 w' : World) (n : Need)
    (r : option Need) (e : error) :
  sqlx.GetNeed zeroNeed (SelectNeed i) w = Returned w1 (n, None) ->
  Get i w <> Returned w' (r, Some e).
Proof.
  intros H.
  destruct (Get_after_fetch i w w1 n H) as (images & e2 & c & e3 & o & e4 & _ & _ & _ & HG).
  rewrite HG. destruct o; discriminate.
Qed.

(** ** Create, then Get *)

Lemma quiet_S (k : nat) (s : Stmt) (w : World) :
  quiet (S k) w = true -> answer w = None /\ quiet k (sent s w) = true.
Proof.
  unfold quiet, answer, sent. cbn [faults]. destruct (faults w) as [|[e|] fs]; cbn.
  - intros _. split; [reflexivity|]. now rewrite firstn_nil.
  - discriminate.
  - intros H. split; [reflexivity | exact H].
Qed.

(** What a Create that returned no error did. *)
Lemma Create_success (n : Need) (w w1 : World) (n1 : Need) :
  Create n w = Returned w1 (n1, None) ->
  let m := set_Title n (strings.TrimSpace (Title n)) in
  let row := mkNeedRow (needs_id_seq (db w)) (CategoryID n) (OrganizationID n)
               (Title m) (Description n) (RequiredQuantity n) (ReachedQuantity n)
               (DueDate n) NeedStatusActive (Unit n) (now w) None in
  n1 = set_ID (set_Status m NeedStatusActive) (needs_id_seq (db w)) /\
  needs (db w1) = needs (db w) ++ [row] /\
  organizations (db w1) = organizations (db w) /\
  organization_error (final (catRepo.Get (CategoryID n) w)) (OrganizationID n) = None.
Proof.
  intros H m row. rewrite Create_eq in H.
  destruct (validate_returns n w) as (w' & e & l & Hv & Hd & Hn & _).
  fold m in Hv. rewrite Hv in H.
  pose proof (validate_eq n w) as Hq. cbv zeta in Hq. fold m in Hq. rewrite Hv in Hq.
  destruct e as [e|]; [discriminate|].
  assert (Ho : organization_error (final (catRepo.Get (CategoryID n) w))
                 (OrganizationID n) = None).
  { rewrite catRepo_Get_eq. cbn [final].
    destruct (strings.len (Title m) =? 0); [discriminate|].
    destruct (category_error w (CategoryID n)); [discriminate|].
    destruct (organization_error _ (OrganizationID n)); [discriminate | reflexivity]. }
  destruct (answer w'); [discriminate|].
  injection H as <- <-. cbn. rewrite Hd, Hn. repeat split. exact Ho.
Qed.

(** C8: on a table needs in which no row has yet the identifier that
    the sequence gives next (identifiers are unique), a need that Create
    returned with no error and that Get then returns for the identifier
    Create gave has the business fields (title, description, required and
    reached quantity, due date, unit) of the need Create returned; and
    Get does return it when the driver fails none of its four
    statements. *)
Theorem Create_then_Get_round_trip (n : Need) (w w1 : World) (n1 : Need) :
  needs_with_id (db w) (needs_id_seq (db w)) = [] ->
  Create n w = Returned w1 (n1, None) ->
  (forall w2 m e, Get (ID n1) w1 = Returned w2 (Some m, e) -> business m = business n1) /\
  (quiet 4 w1 = true -> exists w2 m, Get (ID n1) w1 = Returned w2 (Some m, None)).
Proof.
  intros Hf Hc.
  destruct (Create_success n w w1 n1 Hc) as (Hn1 & Hrows & Horgs & Hoe).
  set (row := mkNeedRow _ _ _ _ _ _ _ _ _ _ _ _) in Hrows.
  assert (Hid : ID n1 = needs_id_seq (db w)) by (rewrite Hn1; reflexivity).
  assert (Hsel : needs_with_id (db w1) (ID n1) = [row]).
  { unfold needs_with_id. rewrite Hrows, filter_app, Hid.
    fold (needs_with_id (db w) (needs_id_seq (db w))). rewrite Hf.
    cbn. now rewrite Z.eqb_refl. }
  assert (Hb : business (sqlx.scanNeed zeroNeed row) = business n1).
  { rewrite Hn1. reflexivity. }
  pose proof (GetNeed_eq zeroNeed (ID n1) w1) as HG. rewrite Hsel in HG.
  split.
  - intros w2 m e Hget.
    destruct (answer w1) as [e1|].
    + unfold Get, bind in Hget. rewrite HG in Hget. discriminate.
    + destruct (Get_after_fetch _ _ _ _ HG)
        as (images & e2 & c & e3 & o & e4 & _ & _ & _ & HGet).
      rewrite HGet in Hget. destruct o as [o|]; [|discriminate].
      inversion Hget; subst. rewrite <- Hb. reflexivity.
  - intros Hq.
    apply (quiet_S 3 (SelectNeed (ID n1))) in Hq as [Ha1 Hq].
    rewrite Ha1 in HG.
    destruct (Get_after_fetch _ _ _ _ HG)
      as (images & e2 & c & e3 & o & e4 & E2 & E3 & E4 & HGet).
    rewrite getNeedImages_eq in E2, E3, E4. cbn [final] in E3, E4.
    rewrite catRepo_Get_eq in E3, E4. cbn [final] in E4.
    apply (quiet_S 2 (SelectNeedsImages (ID (sqlx.scanNeed zeroNeed row)))) in Hq as [_ Hq].
    apply (quiet_S 1 (SelectCategory (CategoryID (sqlx.scanNeed zeroNeed row)))) in Hq
      as [_ Hq].
    apply (quiet_S 0 (SelectOrganization (OrganizationID (sqlx.scanNeed zeroNeed row))))
      in Hq as [Ha4 _].
    rewrite orgRepo_GetBaseOrganization_eq, Ha4 in E4.
    rewrite catRepo_Get_eq in Hoe. cbn [final] in Hoe.
    rewrite organization_error_eq in Hoe.
    unfold lookup_organization in E4, Hoe. cbn [sent db] in E4, Hoe.
    rewrite Horgs in E4. change (OrganizationID (sqlx.scanNeed zeroNeed row))
      with (OrganizationID n) in E4.
    destruct (answer (sent (SelectCategory (CategoryID n)) w)); [discriminate|].
    destruct (filter _ (organizations (db w))) as [|x xs]; [discriminate|].
    inversion E4; subst. rewrite HGet. eauto.
Qed.

Lemma Create_then_Get_round_trip_witness :
  exists w1 n1 w2 m,
    Create Sample.blanket Sample.w0 = Returned w1 (n1, None) /\
    Get (ID n1) w1 = Returned w2 (Some m, None) /\
    business m = business n1 /\
    business m = ("Cobertor", "de casal", 30, 0, Some 1800000000, "un").
Proof.
  pose (o1 := Create Sample.blanket Sample.w0).
  pose (n1 := match value o1 with Some (x, _) => x | None => zeroNeed end).
  pose (o2 := Get (ID n1) (final o1)).
  pose (m := match value o2 with Some (Some x, _) => x | _ => zeroNeed end).
  exists (final o1), n1, (final o2), m.
  split; [vm_compute; reflexivity|]. split; [vm_compute; reflexivity|].
  split; [|vm_compute; reflexivity].
  apply (proj1 (Create_then_Get_round_trip Sample.blanket Sample.w0 (final o1) n1
                  eq_refl eq_refl) (final o2) m None).
  vm_compute; reflexivity.
Defined.

(** ** Update *)

Lemma update_row_owner (t c : Z) (ti de : string) (rq rc : Z) (du : option Z)
    (un : string) (st : needStatus) (i : Z) (r : NeedRow) :
  let r' := update_row t c ti de rq rc du un st i r in
  id r' = id r /\ organization_id r' = organization_id r.
Proof.
  unfold update_row. destruct (id r =? i); split; reflexivity.
Qed.

Lemma update_no_match (t c : Z) (ti de : string) (rq rc : Z) (du : option Z)
    (un : string) (st : needStatus) (i : Z) (l : list NeedRow) :
  filter (fun r => id r =? i) l = [] ->
  map (update_row t c ti de rq rc du un st i) l = l.
Proof.
  induction l as [|r l IH]; cbn; [reflexivity|].
  unfold update_row at 1. destruct (id r =? i); [discriminate|].
  intros H. now rewrite IH.
Qed.

(** C4: when validation passes and the driver does not fail the UPDATE,
    Update returns the validated need with a nil error whatever number
    of rows the statement affected; that number, the count of the rows
    with the identifier, is what Exec returns and Update drops.  With no
    such row the tables are left as they were. *)
Theorem Update_ignores_rows_affected (n : Need) (w w1 : World) (m : Need) :
  validate n w = Returned w1 (m, None) ->
  answer w1 = None ->
  exists w2,
    sqlx.Exec (update_of m) w1 =
      Returned w2 (Z.of_nat (List.length (needs_with_id (db w) (ID n))), None) /\
    Update n w = Returned w2 (m, None) /\
    (needs_with_id (db w) (ID n) = [] -> db w2 = db w).
Proof.
  intros Hv Ha.
  destruct (validate_returns n w) as (w' & e & l & Hr & Hd & _).
  rewrite Hv in Hr. injection Hr as <- -> <-.
  rewrite Update_eq, Hv, Ha.
  set (m := set_Title n (strings.TrimSpace (Title n))).
  exists (mkWorld (fst (execute (now w1) (update_of m) (db w1)))
                  (tl (faults w1)) (log w1 ++ [update_of m]) (now w1)).
  split; [|split].
  - unfold sqlx.Exec, bind. rewrite run_eq, Ha. cbn. unfold needs_with_id.
    rewrite Hd. reflexivity.
  - reflexivity.
  - intros Hz. cbn. unfold needs_with_id in Hz. rewrite Hd.
    rewrite update_no_match by exact Hz. destruct (db w); reflexivity.
Qed.

Lemma Update_ignores_rows_affected_witness :
  exists w2,
    Update Sample.absent Sample.w0 = Returned w2 (Sample.absent, None) /\
    db w2 = Sample.d0.
Proof.
  destruct (Update_ignores_rows_affected Sample.absent Sample.w0
              (sent (SelectOrganization 7) (sent (SelectCategory 1) Sample.w0))
              Sample.absent eq_refl eq_refl) as (w2 & _ & H2 & H3).
  exists w2. split; [exact H2 | apply H3; reflexivity].
Defined.

Lemma update_keeps_owners (t c : Z) (ti de : string) (rq rc : Z) (du : option Z)
    (un : string) (st : needStatus) (i : Z) (l : list NeedRow) :
  map (fun r => (id r, organization_id r))
      (map (update_row t c ti de rq rc du un st i) l) =
  map (fun r => (id r, organization_id r)) l.
Proof.
  rewrite map_map. apply map_ext. intros r.
  destruct (update_row_owner t c ti de rq rc du un st i r) as [-> ->]. reflexivity.
Qed.

(** C10: Update leaves the organization of every row of needs as it
    was, whatever the need it is given and whatever the driver answers;
    when the UPDATE runs, a row with the need's identifier takes the
    need's category, title, description, quantities, due date, status
    and unit and the time of the update, and keeps its organization. *)
Theorem Update_keeps_organization (n : Need) (w : World) :
  owners (db (final (Update n w))) = owners (db w) /\
  (forall w1 m, validate n w = Returned w1 (m, None) -> answer w1 = None ->
   needs (db (final (Update n w))) =
   map (fun r =>
          if id r =? ID n
          then mkNeedRow (id r) (CategoryID n) (organization_id r) (Title m)
                 (Description n) (RequiredQuantity n) (ReachedQuantity n) (DueDate n)
                 (Status n) (Unit n) (created_at r) (Some (now w))
          else r)
       (needs (db w))).
Proof.
  destruct (validate_returns n w) as (w' & e & l & Hr & Hd & Hn & _).
  rewrite Update_eq, Hr. split.
  - destruct e as [e|]; cbn [final]; [now rewrite Hd|].
    destruct (answer w'); cbn [final]; [cbn; now rewrite Hd|].
    cbn. unfold owners. cbn. rewrite Hd. apply update_keeps_owners.
  - intros w1 m Hv Ha. inversion Hv; subst. rewrite Ha. cbn.
    rewrite Hd, Hn. reflexivity.
Qed.

Lemma Update_keeps_organization_witness :
  owners (db (final (Update (set_ID Sample.orphan 1) Sample.w0))) = [(1, 7); (2, 7); (3, 8)] /\
  owners (db (final (Update (set_ID Sample.uncategorized 3) Sample.w0))) =
    [(1, 7); (2, 7); (3, 8)] /\
  owners (db (final (Update
                       (mkNeed 3 1 7 "Leite" "" 5 0 None NeedStatusActive "l" 0 None []
                          zeroCategory zeroOrganization)
                       Sample.w0))) =
    [(1, 7); (2, 7); (3, 8)].
Proof.
  split; [|split].
  - rewrite (proj1 (Update_keeps_organization (set_ID Sample.orphan 1) Sample.w0)).
    reflexivity.
  - rewrite (proj1 (Update_keeps_organization (set_ID Sample.uncategorized 3) Sample.w0)).
    reflexivity.
  - rewrite (proj1 (Update_keeps_organization
                      (mkNeed 3 1 7 "Leite" "" 5 0 None NeedStatusActive "l" 0 None []
                         zeroCategory zeroOrganization)
                      Sample.w0)).
    reflexivity.
Defined.

(** ** DeleteImage *)

Lemma DeleteImage_eq (imageID needID : Z) (w : World) :
  DeleteImage imageID needID w =
  Returned
    (mkWorld
       (match answer w with
        | Some _ => db w
        | None => fst (delete_needs_images (db w) imageID needID)
        end)
       (tl (faults w)) (log w ++ [DeleteNeedsImages imageID needID]) (now w))
    (answer w).
Proof.
  unfold DeleteImage, sqlx.Exec, bind. rewrite run_eq.
  destruct (answer w); reflexivity.
Qed.

Lemma filter_idempotent {A} (f : A -> bool) (l : list A) :
  filter f (filter f l) = filter f l.
Proof.
  induction l as [|x l IH]; cbn; [reflexivity|].
  destruct (f x) eqn:E; cbn; [rewrite E, IH|]; auto.
Qed.

Lemma filter_all {A} (f : A -> bool) (l : list A) :
  (forall x, In x l -> f x = true) -> filter f l = l.
Proof.
  induction l as [|x l IH]; cbn; intros H; [reflexivity|].
  rewrite (H x (or_introl eq_refl)), IH; auto.
Qed.

(** C7: DeleteImage sends one DELETE and returns what the driver answers:
    an error only when the driver fails the statement, in which case the
    tables are as before.  Otherwise the image rows that remain are those
    that do not have both the image identifier and the need identifier
    given, in their order, and no other table changes: a row of another
    need, or with another identifier, stays; with no matching row nothing
    changes and the result is nil; a second DeleteImage with the same
    arguments changes nothing more. *)
Theorem DeleteImage_compound_idempotent (imageID needID : Z) (w : World) :
  let keep := fun r => negb ((NeedImage_ID r =? imageID) && (NeedID r =? needID)) in
  exists w',
    DeleteImage imageID needID w = Returned w' (answer w) /\
    log w' = log w ++ [DeleteNeedsImages imageID needID] /\
    db w' =
      match answer w with
      | Some _ => db w
      | None =>
          mkDB (needs (db w)) (filter keep (needs_images (db w))) (categories (db w))
               (organizations (db w)) (needs_id_seq (db w)) (needs_images_id_seq (db w))
      end /\
    (forall r, In r (needs_images (db w)) ->
               NeedID r <> needID \/ NeedImage_ID r <> imageID ->
               In r (needs_images (db w'))) /\
    ((forall r, In r (needs_images (db w)) ->
                ~ (NeedImage_ID r = imageID /\ NeedID r = needID)) ->
     db w' = db w) /\
    (answer w = None -> db (final (DeleteImage imageID needID w')) = db w').
Proof.
  intros keep. rewrite DeleteImage_eq. eexists. split; [reflexivity|].
  cbn [log db]. split; [reflexivity|]. split; [reflexivity|].
  assert (Hkeep : forall r, NeedID r <> needID \/ NeedImage_ID r <> imageID ->
                            keep r = true).
  { intros r [H|H]; unfold keep; apply negb_true_iff, andb_false_iff;
      [right | left]; now apply Z.eqb_neq. }
  split; [|split].
  - intros r Hin Hr. destruct (answer w); [exact Hin|].
    cbn. apply filter_In. split; [exact Hin | apply Hkeep, Hr].
  - intros Hnone. destruct (answer w); [reflexivity|]. cbn.
    rewrite filter_all; [destruct (db w); reflexivity|].
    intros r Hin. apply Hkeep. specialize (Hnone r Hin).
    destruct (Z.eq_dec (NeedID r) needID) as [E|E]; [|now left].
    right. intros E'. apply Hnone. split; assumption.
  - intros Ha. rewrite DeleteImage_eq. cbn [final db]. rewrite Ha.
    match goal with |- context [answer ?x] => destruct (answer x) end; [reflexivity|].
    cbn. fold keep. rewrite filter_idempotent. reflexivity.
Qed.

Lemma DeleteImage_compound_idempotent_witness :
  (exists w',
     DeleteImage 1 2 Sample.w0 = Returned w' None /\ db w' = Sample.d0) /\
  (exists w',
     DeleteImage 1 1 Sample.w0 = Returned w' None /\
     needs_images (db w') = [Sample.photo 2 2; Sample.photo 3 1]).
Proof.
  split.
  - destruct (DeleteImage_compound_idempotent 1 2 Sample.w0)
      as (w' & H1 & _ & _ & _ & H5 & _).
    exists w'. split; [exact H1|]. apply H5.
    intros r Hin [Hi Hn]. cbn in Hin.
    destruct Hin as [<-|[<-|[<-|[]]]]; discriminate.
  - destruct (DeleteImage_compound_idempotent 1 1 Sample.w0)
      as (w' & H1 & _ & H3 & _).
    exists w'. split; [exact H1|]. rewrite H3. reflexivity.
Defined.

(** ** GetOrganizationNeeds *)

Lemma append_empty (s : string) : (s ++ "")%string = s.
Proof. induction s as [|c s IH]; cbn; [reflexivity | now rewrite IH]. Qed.

Lemma len_positive (s : string) : s <> "" -> (0 <? strings.len s) = true.
Proof.
  intros H. destruct s as [|c s]; [contradiction|].
  unfold strings.len. cbn [String.length]. apply Z.ltb_lt. lia.
Qed.

Lemma orderFilter_empty (order : string) : orderFilter "" order = inl "".
Proof. reflexivity. Qed.

Lemma orderFilter_nonempty (orderBy order : string) :
  orderBy <> "" ->
  orderFilter orderBy order =
  if (order =? "")%string
  then inl (order_by_clause (effective_column orderBy) "asc")
  else if ((order =? "asc") || (order =? "desc"))%string
       then inl (order_by_clause (effective_column orderBy) order)
       else inr direction_not_recognized.
Proof.
  intros H. unfold orderFilter. rewrite (len_positive _ H).
  fold (effective_column orderBy).
  destruct (String.eqb_spec order "") as [->|Hn].
  - reflexivity.
  - rewrite (len_positive _ Hn).
    destruct (order =? "asc")%string, (order =? "desc")%string; reflexivity.
Qed.

Lemma effective_column_fallback (orderBy : string) :
  orderBy <> "id" -> orderBy <> "updated_at" -> effective_column orderBy = "created_at".
Proof.
  intros H1 H2. unfold effective_column.
  apply String.eqb_neq in H1, H2. now rewrite H1, H2.
Qed.

Lemma enrich_log (l : list Need) (w : World) :
  exists k, log (final (enrich l w)) = log w ++ k.
Proof.
  revert w. induction l as [|n l IH]; intros w.
  - exists []. cbn. now rewrite app_nil_r.
  - cbn [enrich]. unfold bind at 1. rewrite catRepo_Get_eq.
    destruct (match answer w with Some e => _ | None => _ end) as [c [e|]].
    { eexists [_]. reflexivity. }
    unfold bind at 1. rewrite getNeedImages_eq.
    destruct (match answer _ with Some e => _ | None => _ end) as [images [e|]].
    { eexists [_; _]. cbn. now rewrite <- app_assoc. }
    unfold bind at 1.
    set (w2 := sent _ (sent _ w)).
    destruct (IH w2) as (k & Hk).
    exists (SelectCategory (CategoryID n)
              :: SelectNeedsImages (ID (set_Category n c)) :: k).
    destruct (enrich l w2) as [w3 [rest [e|]]|]; unfold ret; cbn [final] in *;
      rewrite Hk; unfold w2; cbn [sent log]; now rewrite <- !app_assoc.
Qed.

(** The first statement of a listing whose direction is accepted. *)
Lemma GetOrganizationNeeds_first (oID : Z) (orderBy order filter : string) (w : World) :
  orderFilter orderBy order = inl filter ->
  hd_error (sent_by w (GetOrganizationNeeds oID orderBy order w)) =
  Some (SelectOrganizationNeeds (listing_head ++ filter) oID).
Proof.
  intros H. unfold GetOrganizationNeeds. rewrite H.
  assert (Hs : fmt.Sprintf "SELECT * FROM needs WHERE organization_id = $1 %s"
                 [fmt.str filter] = (listing_head ++ filter)%string).
  { cbn. now rewrite append_empty. }
  rewrite Hs. set (s := SelectOrganizationNeeds _ oID).
  assert (Hl : exists k, log (final (bind (sqlx.SelectNeeds [] s)
                  (fun x => let (oNeeds, err) := x in
                            match err with
                            | Some e => ret ([], Some e)
                            | None => enrich oNeeds
                            end) w)) = log w ++ s :: k).
  { unfold bind, sqlx.SelectNeeds, bind. rewrite run_read by reflexivity.
    destruct (match answer w with Some e => _ | None => _ end) as [[]|e];
      try (exists []; reflexivity).
    cbn [app]. destruct (enrich_log (map (sqlx.scanNeed zeroNeed) l) (sent s w)) as (k & Hk).
    exists k. unfold ret. rewrite Hk. cbn [sent log]. now rewrite <- app_assoc. }
  destruct Hl as (k & Hk). unfold sent_by. rewrite Hk.
  rewrite skipn_app, skipn_all, Nat.sub_diag. reflexivity.
Qed.

(** How the engine reads the clauses that the listing can send. *)
Lemma parse_listing_clauses :
  parse_listing listing_head = Some None /\
  forall c d,
    parse_listing (listing_head ++ order_by_clause (column_name c) (direction_name d)) =
    Some (Some (c, d)).
Proof. split; [reflexivity|]. intros [] []; reflexivity. Qed.

(** C5 (as stated, refuted): with the empty column the listing is not
    the listing ordered by created_at. *)
Lemma empty_column_is_not_created_at :
  ~ (forall (oID : Z) (orderBy order : string) (w : World),
       orderBy <> "id" -> orderBy <> "updated_at" ->
       listed (GetOrganizationNeeds oID orderBy order w) =
       listed (GetOrganizationNeeds oID "created_at" order w)).
Proof.
  intros H.
  specialize (H 7 "" "asc" Sample.w0).
  assert (H1 : "" <> "id") by discriminate.
  assert (H2 : "" <> "updated_at") by discriminate.
  specialize (H H1 H2). vm_compute in H. discriminate H.
Qed.

(** C5 (amended): a requested column that is not empty and is neither
    "id" nor "updated_at" makes the listing exactly what it is for
    "created_at", errors included: with an accepted direction the query
    sent ends in ORDER BY created_at and that direction ("asc" for the
    empty one).  With the empty column the query sent has no ORDER BY
    clause, whatever the direction. *)
Theorem GetOrganizationNeeds_column_fallback (oID : Z) (orderBy order : string)
    (w : World) :
  orderBy <> "id" -> orderBy <> "updated_at" ->
  (orderBy <> "" ->
   GetOrganizationNeeds oID orderBy order w =
     GetOrganizationNeeds oID "created_at" order w /\
   (order = "" \/ order = "asc" \/ order = "desc" ->
    hd_error (sent_by w (GetOrganizationNeeds oID orderBy order w)) =
    Some (SelectOrganizationNeeds
            (listing_head ++
             order_by_clause "created_at" (if (order =? "")%string then "asc" else order))
            oID))) /\
  (orderBy = "" ->
   hd_error (sent_by w (GetOrganizationNeeds oID orderBy order w)) =
   Some (SelectOrganizationNeeds listing_head oID)).
Proof.
  intros Hid Hup. split.
  - intros Hne.
    assert (Hf : orderFilter orderBy order = orderFilter "created_at" order).
    { rewrite (orderFilter_nonempty orderBy order Hne).
      rewrite (orderFilter_nonempty "created_at" order) by discriminate.
      now rewrite (effective_column_fallback _ Hid Hup). }
    split.
    + unfold GetOrganizationNeeds. now rewrite Hf.
    + intros Hd. apply GetOrganizationNeeds_first.
      rewrite (orderFilter_nonempty orderBy order Hne).
      rewrite (effective_column_fallback _ Hid Hup).
      destruct Hd as [->|[->| ->]]; reflexivity.
  - intros ->. apply (GetOrganizationNeeds_first oID "" order "" w). reflexivity.
Qed.

Lemma GetOrganizationNeeds_column_fallback_witness :
  GetOrganizationNeeds 7 "bogus" "asc" Sample.w0 =
    GetOrganizationNeeds 7 "created_at" "asc" Sample.w0 /\
  listed (GetOrganizationNeeds 7 "bogus" "asc" Sample.w0) = Some [2; 1] /\
  hd_error (sent_by Sample.w0 (GetOrganizationNeeds 7 "" "sideways" Sample.w0)) =
    Some (SelectOrganizationNeeds listing_head 7) /\
  listed (GetOrganizationNeeds 7 "" "sideways" Sample.w0) = Some [1; 2].
Proof.
  assert (H1 : "bogus" <> "id") by discriminate.
  assert (H2 : "bogus" <> "updated_at") by discriminate.
  assert (H3 : "bogus" <> "") by discriminate.
  assert (H4 : "" <> "id") by discriminate.
  assert (H5 : "" <> "updated_at") by discriminate.
  split; [|split; [|split]].
  - exact (proj1 (proj1 (GetOrganizationNeeds_column_fallback 7 "bogus" "asc" Sample.w0
                           H1 H2) H3)).
  - reflexivity.
  - exact (proj2 (GetOrganizationNeeds_column_fallback 7 "" "sideways" Sample.w0 H4 H5)
             eq_refl).
  - reflexivity.
Defined.

(** C6: when a column is requested, a direction that is neither empty
    nor "asc" nor "desc" makes the listing fail with the direction error
    in the world it started in, so that no statement was sent; the empty
    direction gives what "asc" gives; and "asc" and "desc" go into the
    ORDER BY clause of the query sent. *)
Theorem GetOrganizationNeeds_direction (oID : Z) (orderBy order : string) (w : World) :
  orderBy <> "" ->
  (order <> "" -> order <> "asc" -> order <> "desc" ->
   GetOrganizationNeeds oID orderBy order w =
     Returned w ([], Some direction_not_recognized)) /\
  GetOrganizationNeeds oID orderBy "" w = GetOrganizationNeeds oID orderBy "asc" w /\
  (order = "asc" \/ order = "desc" ->
   hd_error (sent_by w (GetOrganizationNeeds oID orderBy order w)) =
   Some (SelectOrganizationNeeds
           (listing_head ++ order_by_clause (effective_column orderBy) order) oID)).
Proof.
  intros Hne. split; [|split].
  - intros H0 H1 H2. unfold GetOrganizationNeeds.
    rewrite (orderFilter_nonempty orderBy order Hne).
    apply String.eqb_neq in H0, H1, H2. now rewrite H0, H1, H2.
  - unfold GetOrganizationNeeds. now rewrite !(orderFilter_nonempty orderBy _ Hne).
  - intros Hd. apply GetOrganizationNeeds_first.
    rewrite (orderFilter_nonempty orderBy order Hne).
    destruct Hd as [->| ->]; reflexivity.
Qed.

Lemma GetOrganizationNeeds_direction_witness :
  GetOrganizationNeeds 7 "id" "sideways" Sample.w0 =
    Returned Sample.w0 ([], Some direction_not_recognized) /\
  GetOrganizationNeeds 7 "id" "" Sample.w0 = GetOrganizationNeeds 7 "id" "asc" Sample.w0 /\
  listed (GetOrganizationNeeds 7 "updated_at" "desc" Sample.w0) = Some [1; 2].
Proof.
  assert (H1 : "id" <> "") by discriminate.
  destruct (GetOrganizationNeeds_direction 7 "id" "sideways" Sample.w0 H1) as (Ha & Hb & _).
  split; [|split].
  - apply Ha; discriminate.
  - exact Hb.
  - reflexivity.
Defined.

(** ** The identifiers of needs stay below the sequence, whose next value
    is therefore new *)

Lemma fresh_empty (cs : list Category) (os : list BaseOrganization) (i j : Z) :
  needs_id_fresh (mkDB [] [] cs os i j) = true.
Proof. reflexivity. Qed.

Lemma fresh_no_match (d : DB) :
  needs_id_fresh d = true -> needs_with_id d (needs_id_seq d) = [].
Proof.
  unfold needs_id_fresh, needs_with_id. induction (needs d) as [|r l IH]; cbn.
  - reflexivity.
  - intros H. apply andb_prop in H as [Hr Hl]. apply Z.ltb_lt in Hr.
    destruct (id r =? needs_id_seq d) eqn:E.
    + apply Z.eqb_eq in E. lia.
    + apply IH, Hl.
Qed.

Lemma execute_keeps_fresh (t : Z) (s : Stmt) (d : DB) :
  needs_id_fresh d = true -> needs_id_fresh (fst (execute t s d)) = true.
Proof.
  unfold needs_id_fresh. intros H.
  destruct s as [| | | | c o ti de rq rc du st un | c ti de rq rc du un st i | | | sql o];
    cbn; try exact H.
  - rewrite forallb_app. cbn. rewrite andb_true_r. apply andb_true_iff. split.
    + rewrite forallb_forall in *. intros r Hr. specialize (H r Hr).
      apply Z.ltb_lt in H. apply Z.ltb_lt. lia.
    + apply Z.ltb_lt. lia.
  - rewrite forallb_forall in *. intros r Hr. apply in_map_iff in Hr as (r0 & <- & Hr0).
    destruct (update_row_owner t c ti de rq rc du un st i r0) as [-> _].
    apply H, Hr0.
  - destruct (parse_listing sql); exact H.
Qed.

Lemma run_keeps_fresh (s : Stmt) (w : World) :
  needs_id_fresh (db w) = true -> needs_id_fresh (db (final (run s w))) = true.
Proof.
  intros H. rewrite run_eq. destruct (answer w); cbn [final db sent]; [exact H|].
  apply execute_keeps_fresh, H.
Qed.

Lemma Create_keeps_fresh (n : Need) (w : World) :
  needs_id_fresh (db w) = true -> needs_id_fresh (db (final (Create n w))) = true.
Proof.
  intros H. rewrite Create_eq.
  destruct (validate_returns n w) as (w' & e & l & Hr & Hd & _). rewrite Hr.
  rewrite <- Hd in H.
  destruct e; [exact H|]. destruct (answer w'); cbn [final db sent]; [exact H|].
  apply execute_keeps_fresh, H.
Qed.

Lemma Update_keeps_fresh (n : Need) (w : World) :
  needs_id_fresh (db w) = true -> needs_id_fresh (db (final (Update n w))) = true.
Proof.
  intros H. rewrite Update_eq.
  destruct (validate_returns n w) as (w' & e & l & Hr & Hd & _). rewrite Hr.
  rewrite <- Hd in H.
  destruct e; [exact H|]. destruct (answer w'); cbn [final db sent]; [exact H|].
  apply execute_keeps_fresh, H.
Qed.

Lemma DeleteImage_keeps_fresh (imageID needID : Z) (w : World) :
  needs_id_fresh (db w) = true ->
  needs_id_fresh (db (final (DeleteImage imageID needID w))) = true.
Proof.
  intros H. rewrite DeleteImage_eq. cbn [final db].
  destruct (answer w); [exact H|].
  apply (execute_keeps_fresh 0 (DeleteNeedsImages imageID needID)), H.
Qed.

Lemma CreateImage_keeps_fresh (i : NeedImage) (w : World) :
  needs_id_fresh (db w) = true -> needs_id_fresh (db (final (CreateImage i w))) = true.
Proof.
  intros H. unfold CreateImage, sqlx.QueryRowScan, bind.
  pose proof (run_keeps_fresh (InsertNeedsImages (NeedID i) (Name (NeedImage_Image i))
                                 (URL (NeedImage_Image i))) w H) as Hr.
  destruct (run _ w) as [w' [[]|e]|]; cbn [final] in *; try exact Hr.
  destruct l; destruct i; exact Hr.
Qed.

(** ** What the lookups of validation mean on the tables *)

Lemma category_error_none (w : World) (i : Z) :
  category_error w i = None <->
  answer w = None /\ exists c, In c (categories (db w)) /\ Category_ID c = i.
Proof.
  rewrite category_error_eq. unfold lookup_category.
  destruct (answer w) as [e|].
  { split; [discriminate | intros [H _]; discriminate]. }
  destruct (filter _ (categories (db w))) as [|c l] eqn:E; cbn.
  - split; [discriminate|]. intros (_ & c & Hin & Hc).
    assert (Hf : In c (filter (fun r => Category_ID r =? i) (categories (db w)))).
    { apply filter_In. split; [exact Hin | now apply Z.eqb_eq]. }
    rewrite E in Hf. destruct Hf.
  - split; [|reflexivity]. intros _. split; [reflexivity|]. exists c.
    assert (Hf : In c (filter (fun r => Category_ID r =? i) (categories (db w)))).
    { rewrite E. now left. }
    apply filter_In in Hf as [Hin Hc]. split; [exact Hin | now apply Z.eqb_eq].
Qed.

Lemma organization_error_none (w : World) (i : Z) :
  organization_error w i = None <->
  answer w = None /\ exists o, In o (organizations (db w)) /\ Organization_ID o = i.
Proof.
  rewrite organization_error_eq. unfold lookup_organization.
  destruct (answer w) as [e|].
  { split; [discriminate | intros [H _]; discriminate]. }
  destruct (filter _ (organizations (db w))) as [|c l] eqn:E; cbn.
  - split; [discriminate|]. intros (_ & c & Hin & Hc).
    assert (Hf : In c (filter (fun r => Organization_ID r =? i) (organizations (db w)))).
    { apply filter_In. split; [exact Hin | now apply Z.eqb_eq]. }
    rewrite E in Hf. destruct Hf.
  - split; [|reflexivity]. intros _. split; [reflexivity|]. exists c.
    assert (Hf : In c (filter (fun r => Organization_ID r =? i) (organizations (db w)))).
    { rewrite E. now left. }
    apply filter_In in Hf as [Hin Hc]. split; [exact Hin | now apply Z.eqb_eq].
Qed.

(** ** strings.TrimSpace on a few strings *)

Example TrimSpace_ascii : strings.TrimSpace "  Cobertor de casal  " = "Cobertor de casal".
Proof. reflexivity. Qed.

Example TrimSpace_blank :
  strings.TrimSpace (String "009" (String "010" (String "013" " "))) = "".
Proof. reflexivity. Qed.

(** U+00A0 in front, U+2003 and U+3000 behind. *)
Example TrimSpace_unicode :
  strings.TrimSpace
    (String "194" (String "160" "a b" ++
       String "226" (String "128" (String "131"
         (String "227" (String "128" (String "128" ""))))))) = "a b".
Proof. reflexivity. Qed.

(** A byte of a rune that is not white space is kept. *)
Example TrimSpace_keeps : strings.TrimSpace (String "195" (String "160" " ")) =
                          String "195" (String "160" "").
Proof. reflexivity. Qed.

(** ** The images of a need *)

Lemma CreateImage_eq (i : NeedImage) (w : World) :
  CreateImage i w =
  match answer w with
  | Some e =>
      Returned (sent (InsertNeedsImages (NeedID i) (Name (NeedImage_Image i))
                        (URL (NeedImage_Image i))) w)
               (i, Some e)
  | None =>
      Returned
        (mkWorld
           (mkDB (needs (db w))
                 (needs_images (db w) ++
                  [mkNeedImage (needs_images_id_seq (db w)) (NeedID i)
                     (mkImage (Name (NeedImage_Image i)) (URL (NeedImage_Image i)))])
                 (categories (db w)) (organizations (db w)) (needs_id_seq (db w))
                 (needs_images_id_seq (db w) + 1))
           (tl (faults w))
           (log w ++ [InsertNeedsImages (NeedID i) (Name (NeedImage_Image i))
                        (URL (NeedImage_Image i))])
           (now w))
        (set_NeedImage_ID i (needs_images_id_seq (db w)), None)
  end.
Proof.
  unfold CreateImage, sqlx.QueryRowScan, bind. rewrite run_eq.
  destruct (answer w); cbn; [destruct i|]; reflexivity.
Qed.

(** X1: GetNeedsImages sends one SELECT and changes no table.  When the
    driver fails it, the result is the empty list with the driver's
    error; otherwise the error is nil and the result holds exactly the
    image rows whose need identifier is the need's ID, in the order of
    the table.  No other field of the need matters. *)
Theorem GetNeedsImages_lists_the_rows (n : Need) (w : World) :
  exists l,
    GetNeedsImages n w = Returned (sent (SelectNeedsImages (ID n)) w) (l, answer w) /\
    db (sent (SelectNeedsImages (ID n)) w) = db w /\
    (answer w <> None -> l = []) /\
    (answer w = None ->
     l = images_of (db w) (ID n) /\
     forall r, In r l <-> In r (needs_images (db w)) /\ NeedID r = ID n) /\
    (forall n', ID n' = ID n -> GetNeedsImages n' w = GetNeedsImages n w).
Proof.
  unfold GetNeedsImages. rewrite getNeedImages_eq.
  destruct (answer w) as [e|] eqn:Ea.
  - exists []. repeat split; try discriminate.
    intros n' Hn. rewrite getNeedImages_eq, Ea, Hn. reflexivity.
  - exists (images_of (db w) (ID n)). split; [reflexivity|]. split; [reflexivity|].
    split; [intros H; now contradiction H|]. split.
    + intros _. split; [reflexivity|]. intros r. unfold images_of.
      rewrite filter_In, Z.eqb_eq. reflexivity.
    + intros n' Hn. rewrite getNeedImages_eq, Ea, Hn. reflexivity.
Qed.

(** X2: after a CreateImage that returned no error, the image it
    returned has the identifier drawn from the sequence and the need,
    name and URL given, and a fetch of the images of that need that the
    driver does not fail returns the images the need had, followed by the
    new one; the images of every other need are as before. *)
Theorem CreateImage_then_getNeedImages (i i1 : NeedImage) (w w1 : World) :
  CreateImage i w = Returned w1 (i1, None) ->
  answer w1 = None ->
  i1 = mkNeedImage (needs_images_id_seq (db w)) (NeedID i)
         (mkImage (Name (NeedImage_Image i)) (URL (NeedImage_Image i))) /\
  forall n,
    value (getNeedImages n w1) =
    Some (if ID n =? NeedID i
          then images_of (db w) (ID n) ++ [i1]
          else images_of (db w) (ID n),
          None).
Proof.
  intros Hc Ha. rewrite CreateImage_eq in Hc. destruct i as [iid nid [na ur]].
  destruct (answer w); [discriminate|]. inversion Hc; subst; clear Hc.
  split; [reflexivity|]. intros n.
  rewrite getNeedImages_eq, Ha. cbn [value db needs_images].
  rewrite filter_app. cbn [filter NeedID]. unfold images_of.
  rewrite (Z.eqb_sym nid (ID n)).
  destruct (ID n =? nid); [reflexivity | now rewrite app_nil_r].
Qed.

Lemma CreateImage_then_getNeedImages_witness :
  value (getNeedImages (sqlx.scanNeed zeroNeed Sample.beans)
           (final (CreateImage (Sample.photo 0 2) Sample.w0))) =
  Some ([Sample.photo 2 2; Sample.photo 4 2], None).
Proof.
  destruct (CreateImage_then_getNeedImages (Sample.photo 0 2) (Sample.photo 4 2) Sample.w0
              (final (CreateImage (Sample.photo 0 2) Sample.w0)) eq_refl eq_refl)
    as [_ H].
  rewrite H. reflexivity.
Defined.

(** X3: when no image row has yet the identifier that the sequence gives
    next, a CreateImage that returned no error followed by DeleteImage of
    the returned identifier and need, which the driver does not fail,
    leaves the image rows, and the rows of needs, as they were before the
    two calls. *)
Theorem CreateImage_then_DeleteImage (i i1 : NeedImage) (w w1 : World) :
  (forall r, In r (needs_images (db w)) -> NeedImage_ID r <> needs_images_id_seq (db w)) ->
  CreateImage i w = Returned w1 (i1, None) ->
  answer w1 = None ->
  exists w2,
    DeleteImage (NeedImage_ID i1) (NeedID i1) w1 = Returned w2 None /\
    needs_images (db w2) = needs_images (db w) /\
    needs (db w2) = needs (db w).
Proof.
  intros Hfresh Hc Ha. rewrite CreateImage_eq in Hc. destruct i as [iid nid [na ur]].
  destruct (answer w); [discriminate|]. inversion Hc; subst; clear Hc.
  rewrite DeleteImage_eq, Ha. eexists. split; [reflexivity|].
  cbn. split; [|reflexivity].
  rewrite filter_app. cbn. unfold delete_matches. cbn. rewrite !Z.eqb_refl. cbn.
  rewrite app_nil_r. apply filter_all. intros r Hin.
  apply negb_true_iff, andb_false_iff. left. apply Z.eqb_neq.
  apply Hfresh, Hin.
Qed.

Lemma CreateImage_then_DeleteImage_witness :
  exists w2,
    DeleteImage 4 2 (final (CreateImage (Sample.photo 0 2) Sample.w0)) = Returned w2 None /\
    needs_images (db w2) = needs_images Sample.d0 /\
    needs (db w2) = needs Sample.d0.
Proof.
  apply (CreateImage_then_DeleteImage (Sample.photo 0 2) (Sample.photo 4 2) Sample.w0
           (final (CreateImage (Sample.photo 0 2) Sample.w0))).
  - intros r Hin. cbn in Hin. destruct Hin as [<-|[<-|[<-|[]]]]; discriminate.
  - reflexivity.
  - reflexivity.
Defined.

(** ** Get on a known and on an unknown identifier *)

Lemma needs_with_id_id (d : DB) (i : Z) (r : NeedRow) (rest : list NeedRow) :
  needs_with_id d i = r :: rest -> In r (needs d) /\ id r = i.
Proof.
  intros H. assert (Hin : In r (needs_with_id d i)) by (rewrite H; now left).
  unfold needs_with_id in Hin. apply filter_In in Hin as [Hin Hid].
  split; [exact Hin | now apply Z.eqb_eq].
Qed.

(** X4: when the driver fails none of the four statements, a row of
    needs has the identifier, and the category and the organization of
    the first such row have a row, Get returns, with a nil error, a need
    holding the columns of that row, the image rows of that need in the
    order of the table, the category found and the organization found.
    It sends the four SELECTs in that order and changes no table. *)
Theorem Get_returns_the_enriched_row (i : Z) (w : World) (r : NeedRow)
    (rest : list NeedRow) (c : Category) (o : BaseOrganization) :
  quiet 4 w = true ->
  needs_with_id (db w) i = r :: rest ->
  lookup_category (db w) (category_id r) = (c, None) ->
  lookup_organization (db w) (organization_id r) = (Some o, None) ->
  exists w',
    Get i w =
      Returned w'
        (Some (mkNeed i (category_id r) (organization_id r) (title r) (description r)
                 (required_qtd r) (reached_qtd r) (due_date r) (status r) (unit_ r)
                 (created_at r) (updated_at r) (images_of (db w) i) c o),
         None) /\
    db w' = db w /\
    log w' = log w ++ [SelectNeed i; SelectNeedsImages i; SelectCategory (category_id r);
                       SelectOrganization (organization_id r)].
Proof.
  intros Hq Hr Hc Ho.
  destruct (needs_with_id_id _ _ _ _ Hr) as [_ Hid].
  pose proof (GetNeed_eq zeroNeed i w) as HG. rewrite Hr in HG.
  apply (quiet_S 3 (SelectNeed i)) in Hq as [Ha1 Hq]. rewrite Ha1 in HG.
  apply (quiet_S 2 (SelectNeedsImages i)) in Hq as [Ha2 Hq].
  apply (quiet_S 1 (SelectCategory (category_id r))) in Hq as [Ha3 Hq].
  apply (quiet_S 0 (SelectOrganization (organization_id r))) in Hq as [Ha4 _].
  unfold Get. unfold bind at 1. rewrite HG.
  unfold bind at 1. rewrite getNeedImages_eq.
  change (ID (sqlx.scanNeed zeroNeed r)) with (id r). rewrite Hid, Ha2. subst i.
  unfold bind at 1.
  change (CategoryID (set_Images (sqlx.scanNeed zeroNeed r) _)) with (category_id r).
  rewrite catRepo_Get_eq, Ha3. cbn [sent db]. rewrite Hc.
  unfold bind at 1.
  change (OrganizationID (set_Category (set_Images (sqlx.scanNeed zeroNeed r) _) c))
    with (organization_id r).
  rewrite orgRepo_GetBaseOrganization_eq, Ha4. cbn [sent db]. rewrite Ho.
  unfold ret. eexists. split; [|split].
  - reflexivity.
  - reflexivity.
  - cbn [sent log]. now rewrite <- !app_assoc.
Qed.

Lemma Get_returns_the_enriched_row_witness :
  exists w',
    Get 2 Sample.w0 =
      Returned w'
        (Some (mkNeed 2 1 7 "Feijao" "1kg" 20 0 None NeedStatusInactive "kg" 1600000100
                 (Some 1600000500) [Sample.photo 2 2] Sample.food Sample.shelter),
         None) /\
    db w' = Sample.d0 /\
    log w' = [SelectNeed 2; SelectNeedsImages 2; SelectCategory 1; SelectOrganization 7].
Proof.
  exact (Get_returns_the_enriched_row 2 Sample.w0 Sample.beans [] Sample.food
           Sample.shelter eq_refl eq_refl eq_refl eq_refl).
Defined.

(** X5: when no row of needs has the identifier, Get sends its first
    SELECT only and returns a nil need with sql.ErrNoRows as it is, or
    with the driver's error when the driver failed the statement; the
    images, the category and the organization are not looked up. *)
Theorem Get_unknown_id (i : Z) (w : World) :
  needs_with_id (db w) i = [] ->
  Get i w =
  Returned (sent (SelectNeed i) w)
           (None, Some (match answer w with Some e => e | None => ErrNoRows end)).
Proof.
  intros H. unfold Get, bind. rewrite GetNeed_eq, H.
  destruct (answer w); reflexivity.
Qed.

Lemma Get_unknown_id_witness :
  Get 5 Sample.w0 =
  Returned (mkWorld Sample.d0 [] [SelectNeed 5] 1700000000) (None, Some ErrNoRows).
Proof. exact (Get_unknown_id 5 Sample.w0 eq_refl). Defined.


(** ** The listing of an organization's needs *)

Lemma reads_only_app (k l : list Stmt) :
  reads_only (k ++ l) = reads_only k && reads_only l.
Proof. unfold reads_only. apply forallb_app. Qed.

(** The loop of the listing: it changes no table, sends the two lookups
    of each need in turn until one fails, and returns either an error
    with the empty list or every need enriched. *)
Lemma enrich_spec (l : list Need) (w : World) :
  exists w' r e k,
    enrich l w = Returned w' (r, e) /\
    db w' = db w /\
    log w' = log w ++ k /\
    reads_only k = true /\
    (e <> None -> r = []) /\
    (e = None ->
     r = map (enriched (db w)) l /\ k = flat_map enrichment_of l /\
     forall n, In n l -> snd (lookup_category (db w) (CategoryID n)) = None).
Proof.
  revert w. induction l as [|n l IH]; intros w.
  - exists w, [], None, []. cbn. rewrite app_nil_r. repeat split. intros n [].
  - cbn [enrich]. unfold bind at 1. rewrite catRepo_Get_eq.
    destruct (match answer w with Some e => _ | None => _ end) as [c [e|]] eqn:Ec.
    { eexists _, [], (Some e), [SelectCategory (CategoryID n)].
      split; [reflexivity|]. repeat split; discriminate. }
    assert (Hc : lookup_category (db w) (CategoryID n) = (c, None)).
    { destruct (answer w); [discriminate | exact Ec]. }
    unfold bind at 1. rewrite getNeedImages_eq.
    change (ID (set_Category n c)) with (ID n).
    set (w1 := sent (SelectCategory (CategoryID n)) w).
    destruct (answer w1) as [e|] eqn:Ea.
    { eexists _, [], (Some e), [SelectCategory (CategoryID n); SelectNeedsImages (ID n)].
      split; [reflexivity|]. unfold w1. cbn [sent db log]. rewrite <- app_assoc.
      repeat split; discriminate. }
    unfold bind at 1. set (w2 := sent (SelectNeedsImages (ID n)) w1).
    destruct (IH w2) as (w' & r & e & k & He & Hd & Hl & Hro & Herr & Hok).
    rewrite He.
    assert (Hd2 : db w2 = db w) by reflexivity.
    assert (Hl2 : log w2 = log w ++ enrichment_of n).
    { unfold w2, w1, enrichment_of. cbn [sent log]. now rewrite <- app_assoc. }
    destruct e as [e|].
    + eexists w', [], (Some e), (enrichment_of n ++ k).
      split; [reflexivity|]. rewrite Hd, Hl, Hl2, app_assoc, reads_only_app, Hro.
      repeat split; discriminate.
    + exists w', (enriched (db w) n :: r), None, (enrichment_of n ++ k).
      destruct (Hok eq_refl) as (Hr & Hk & Hcat).
      split.
      { unfold ret, enriched. rewrite Hc. reflexivity. }
      rewrite Hd, Hl, Hl2, app_assoc, reads_only_app, Hro.
      repeat split; try (intros H; now contradiction H).
      * cbn [map]. rewrite Hr, Hd2. reflexivity.
      * cbn [flat_map]. now rewrite Hk.
      * intros m [<-|Hm]; [now rewrite Hc | apply Hcat, Hm].
Qed.

Lemma Sprintf_listing (f : string) :
  fmt.Sprintf "SELECT * FROM needs WHERE organization_id = $1 %s" [fmt.str f] =
  (listing_head ++ f)%string.
Proof. cbn. now rewrite append_empty. Qed.

Lemma enrichment_of_enriched (d : DB) (l : list Need) :
  flat_map enrichment_of (map (enriched d) l) = flat_map enrichment_of l.
Proof.
  induction l as [|n l IH]; cbn [map flat_map]; [reflexivity|]. now rewrite IH.
Qed.

(** The listing once its filter is built. *)
Lemma GetOrganizationNeeds_spec (oID : Z) (orderBy order f : string) (w : World) :
  orderFilter orderBy order = inl f ->
  exists w' r e k,
    GetOrganizationNeeds oID orderBy order w = Returned w' (r, e) /\
    db w' = db w /\
    log w' = log w ++ SelectOrganizationNeeds (listing_head ++ f) oID :: k /\
    reads_only k = true /\
    (e <> None -> r = []) /\
    (e = None ->
     exists ord,
       parse_listing (listing_head ++ f) = Some ord /\
       r = map (enriched (db w))
             (map (sqlx.scanNeed zeroNeed) (order_rows ord (needs_of (db w) oID))) /\
       k = flat_map enrichment_of r /\
       forall m, In m r -> snd (lookup_category (db w) (CategoryID m)) = None).
Proof.
  intros Hf. unfold GetOrganizationNeeds. rewrite Hf, Sprintf_listing.
  set (s := SelectOrganizationNeeds _ oID).
  unfold bind, sqlx.SelectNeeds, bind. rewrite run_read by reflexivity.
  destruct (answer w) as [e|].
  { eexists _, [], (Some e), []. split; [reflexivity|]. repeat split; discriminate. }
  cbn [execute snd s]. destruct (parse_listing _) as [ord|].
  - cbn [app]. fold s.
    destruct (enrich_spec (map (sqlx.scanNeed zeroNeed)
                             (order_rows ord (needs_of (db w) oID))) (sent s w))
      as (w' & r & e & k & He & Hd & Hl & Hro & Herr & Hok).
    exists w', r, e, k. unfold needs_of in He. unfold ret. cbn [snd]. rewrite He.
    split; [reflexivity|]. split; [exact Hd|]. split.
    { rewrite Hl. cbn [sent log]. now rewrite <- app_assoc. }
    split; [exact Hro|]. split; [exact Herr|].
    intros H. destruct (Hok H) as (Hr & Hk & Hcat). exists ord. split; [reflexivity|].
    cbn [sent db] in Hr, Hcat. split; [exact Hr|]. split.
    { rewrite Hk, Hr. cbn [sent db]. now rewrite enrichment_of_enriched. }
    intros m Hm. rewrite Hr in Hm. apply in_map_iff in Hm as (m0 & <- & Hm0).
    apply (Hcat m0 Hm0).
  - eexists _, [], (Some _), []. split; [reflexivity|]. repeat split. discriminate.
Qed.

Lemma orderFilter_in_filters (orderBy order f : string) :
  orderFilter orderBy order = inl f -> In f filters.
Proof.
  destruct (String.eqb_spec orderBy "") as [->|Hne].
  { rewrite orderFilter_empty. intros H. inversion H. now left. }
  rewrite (orderFilter_nonempty _ _ Hne). unfold effective_column.
  destruct (String.eqb_spec orderBy "id") as [->|_];
    [|destruct (String.eqb_spec orderBy "updated_at") as [->|_]];
    cbn [orb];
    (destruct (String.eqb_spec order "") as [->|_];
     [|destruct (String.eqb_spec order "asc") as [->|_];
       [|destruct (String.eqb_spec order "desc") as [->|_]]]);
    cbn [orb]; intros H; inversion H; cbv; tauto.
Qed.

Lemma filters_parse (f : string) :
  In f filters -> exists ord, parse_listing (listing_head ++ f) = Some ord.
Proof.
  intros H. cbv [filters orderings map fst snd] in H.
  repeat (destruct H as [<-|H]; [eexists; reflexivity|]). destruct H.
Qed.

(** X7: whatever its arguments and whatever the driver answers,
    GetOrganizationNeeds returns (it does not panic), leaves every table
    as it was and sends only SELECTs; with an error it returns the empty
    list, never a part of the needs. *)
Theorem GetOrganizationNeeds_reads_only (oID : Z) (orderBy order : string) (w : World) :
  exists w' r e l,
    GetOrganizationNeeds oID orderBy order w = Returned w' (r, e) /\
    db w' = db w /\
    log w' = log w ++ l /\
    reads_only l = true /\
    (e <> None -> r = []).
Proof.
  destruct (orderFilter orderBy order) as [f|e] eqn:Hf.
  - destruct (GetOrganizationNeeds_spec oID orderBy order f w Hf)
      as (w' & r & e & k & HG & Hd & Hl & Hro & Herr & _).
    exists w', r, e, (SelectOrganizationNeeds (listing_head ++ f) oID :: k).
    repeat split; assumption.
  - exists w, [], (Some e), []. unfold GetOrganizationNeeds. rewrite Hf, app_nil_r.
    repeat split.
Qed.

Lemma insert_sorted_perm (leb : NeedRow -> NeedRow -> bool) (x : NeedRow) (l : list NeedRow) :
  Permutation (insert_sorted leb x l) (x :: l).
Proof.
  induction l as [|y l IH]; cbn; [reflexivity|].
  destruct (leb x y); [reflexivity|].
  rewrite IH. apply perm_swap.
Qed.

Lemma order_rows_perm (ord : option (Column * Direction)) (l : list NeedRow) :
  Permutation (order_rows ord l) l.
Proof.
  destruct ord as [cd|]; cbn; [|reflexivity].
  induction l as [|x l IH]; cbn; [reflexivity|].
  rewrite insert_sorted_perm. now constructor.
Qed.

(** X8: when GetOrganizationNeeds returns a nil error, the needs it
    returns are the rows of needs of that organization, each once: their
    identifiers are a permutation of the identifiers of those rows.  Each
    returned need belongs to the organization, carries the category row
    whose identifier is its CategoryID, and the image rows of the need in
    the order of the table; its Organization field is left at the zero
    value. *)
Theorem GetOrganizationNeeds_lists_the_organization (oID : Z) (orderBy order : string)
    (w w' : World) (r : list Need) :
  GetOrganizationNeeds oID orderBy order w = Returned w' (r, None) ->
  Permutation (map ID r) (map id (needs_of (db w) oID)) /\
  forall m, In m r ->
    OrganizationID m = oID /\
    (exists row, In row (needs (db w)) /\ m = enriched (db w) (sqlx.scanNeed zeroNeed row)) /\
    In (Category_ m) (categories (db w)) /\
    Category_ID (Category_ m) = CategoryID m /\
    Images m = images_of (db w) (ID m) /\
    Organization m = zeroOrganization.
Proof.
  intros HG.
  destruct (orderFilter orderBy order) as [f|e] eqn:Hf.
  2:{ unfold GetOrganizationNeeds in HG. rewrite Hf in HG. discriminate. }
  destruct (GetOrganizationNeeds_spec oID orderBy order f w Hf)
    as (w1 & r1 & e1 & k & HG1 & _ & _ & _ & _ & Hok).
  rewrite HG in HG1. inversion HG1; subst w1 r1 e1.
  destruct (Hok eq_refl) as (ord & _ & Hr & _ & Hcat).
  split.
  - rewrite Hr, !map_map. cbn [enriched set_Images ID].
    change (map (fun x => id x) (order_rows ord (needs_of (db w) oID)))
      with (map id (order_rows ord (needs_of (db w) oID))).
    apply Permutation_map, order_rows_perm.
  - intros m Hm. specialize (Hcat m Hm).
    rewrite Hr in Hm. apply in_map_iff in Hm as (m0 & <- & Hm0).
    apply in_map_iff in Hm0 as (row & <- & Hrow).
    apply (Permutation_in _ (order_rows_perm ord _)) in Hrow.
    unfold needs_of in Hrow. apply filter_In in Hrow as [Hin Ho].
    apply Z.eqb_eq in Ho.
    split; [exact Ho|]. split; [exists row; split; [exact Hin | reflexivity]|].
    cbn [enriched set_Images set_Category Category_ CategoryID Images ID Organization
         sqlx.scanNeed zeroNeed] in *.
    unfold lookup_category in *.
    destruct (filter _ (categories (db w))) as [|c cs] eqn:Ef; [discriminate|].
    assert (Hc : In c (filter (fun r0 => Category_ID r0 =? category_id row)
                         (categories (db w)))) by (rewrite Ef; now left).
    apply filter_In in Hc as [Hc1 Hc2]. apply Z.eqb_eq in Hc2.
    cbn [fst]. repeat split; assumption.
Qed.

Lemma GetOrganizationNeeds_lists_the_organization_witness :
  exists w' r,
    GetOrganizationNeeds 7 "updated_at" "desc" Sample.w0 = Returned w' (r, None) /\
    Permutation (map ID r) [1; 2].
Proof.
  pose (o := GetOrganizationNeeds 7 "updated_at" "desc" Sample.w0).
  pose (r := match value o with Some (l, _) => l | None => [] end).
  exists (final o), r.
  assert (H : o = Returned (final o) (r, None)) by (vm_compute; reflexivity).
  split; [exact H|].
  exact (proj1 (GetOrganizationNeeds_lists_the_organization 7 "updated_at" "desc"
                  Sample.w0 (final o) r H)).
Defined.

(** X9: a listing that returns n needs with a nil error has sent 1 + 2n
    statements: the query, then for each returned need in turn the lookup
    of its category and the fetch of its images. *)
Theorem GetOrganizationNeeds_sends_two_per_need (oID : Z) (orderBy order : string)
    (w w' : World) (r : list Need) :
  GetOrganizationNeeds oID orderBy order w = Returned w' (r, None) ->
  exists sql,
    sent_by w (GetOrganizationNeeds oID orderBy order w) =
      SelectOrganizationNeeds sql oID :: flat_map enrichment_of r /\
    List.length (sent_by w (GetOrganizationNeeds oID orderBy order w)) =
      S (2 * List.length r).
Proof.
  intros HG.
  destruct (orderFilter orderBy order) as [f|e] eqn:Hf.
  2:{ unfold GetOrganizationNeeds in HG. rewrite Hf in HG. discriminate. }
  destruct (GetOrganizationNeeds_spec oID orderBy order f w Hf)
    as (w1 & r1 & e1 & k & HG1 & _ & Hl & _ & _ & Hok).
  rewrite HG in HG1. inversion HG1; subst w1 r1 e1.
  destruct (Hok eq_refl) as (ord & _ & _ & Hk & _).
  exists (listing_head ++ f)%string.
  assert (Hs : sent_by w (GetOrganizationNeeds oID orderBy order w) =
               SelectOrganizationNeeds (listing_head ++ f) oID :: flat_map enrichment_of r).
  { unfold sent_by. rewrite HG. cbn [final]. rewrite Hl, Hk.
    rewrite skipn_app, skipn_all, Nat.sub_diag. reflexivity. }
  split; [exact Hs|]. rewrite Hs. cbn [List.length]. f_equal.
  clear. induction r as [|m r IH]; cbn [flat_map List.length app enrichment_of];
    [reflexivity|]. rewrite IH. lia.
Qed.

Lemma GetOrganizationNeeds_sends_two_per_need_witness :
  List.length (sent_by Sample.w0 (GetOrganizationNeeds 7 "" "" Sample.w0)) = 5%nat.
Proof.
  pose (o := GetOrganizationNeeds 7 "" "" Sample.w0).
  pose (r := match value o with Some (l, _) => l | None => [] end).
  assert (H : o = Returned (final o) (r, None)) by (vm_compute; reflexivity).
  destruct (GetOrganizationNeeds_sends_two_per_need 7 "" "" Sample.w0 (final o) r H)
    as (sql & _ & Hlen).
  rewrite Hlen. reflexivity.
Defined.

(** X10: whatever strings are passed as column and direction, the text
    of the query that GetOrganizationNeeds sends is one of seven fixed
    texts (no ORDER BY, or ORDER BY one of id, updated_at, created_at in
    one of asc, desc), which the engine reads as such: the arguments
    never reach the text otherwise.  The query is the first statement
    sent, with the organization identifier as its argument. *)
Theorem GetOrganizationNeeds_sends_fixed_texts (oID : Z) (orderBy order : string)
    (w : World) (s : Stmt) :
  hd_error (sent_by w (GetOrganizationNeeds oID orderBy order w)) = Some s ->
  exists sql,
    s = SelectOrganizationNeeds sql oID /\
    In sql listing_texts /\
    exists ord, parse_listing sql = Some ord.
Proof.
  intros Hs.
  destruct (orderFilter orderBy order) as [f|e] eqn:Hf.
  - rewrite (GetOrganizationNeeds_first oID orderBy order f w Hf) in Hs.
    inversion Hs; subst s. exists (listing_head ++ f)%string.
    pose proof (orderFilter_in_filters _ _ _ Hf) as Hin.
    split; [reflexivity|]. split.
    + unfold listing_texts. apply in_map_iff. exists f. split; [reflexivity | exact Hin].
    + apply filters_parse, Hin.
  - unfold GetOrganizationNeeds, sent_by in Hs. rewrite Hf in Hs. cbn [final ret] in Hs.
    rewrite skipn_all in Hs. discriminate.
Qed.

Lemma GetOrganizationNeeds_sends_fixed_texts_witness :
  exists sql,
    SelectOrganizationNeeds
      "SELECT * FROM needs WHERE organization_id = $1 ORDER BY created_at asc " 7 =
      SelectOrganizationNeeds sql 7 /\
    In sql listing_texts /\
    exists ord, parse_listing sql = Some ord.
Proof.
  exact (GetOrganizationNeeds_sends_fixed_texts 7 "id; DROP TABLE needs" "" Sample.w0
           _ eq_refl).
Defined.

Lemma row_leb_total (cd : Column * Direction) (a b : NeedRow) :
  row_leb cd a b = false -> row_leb cd b a = true.
Proof.
  destruct cd as [[] []]; unfold row_leb, key_leb; cbn [fst snd];
    try (intros H; apply Z.leb_gt in H; apply Z.leb_le; lia);
    destruct (updated_at a), (updated_at b); try discriminate; try reflexivity;
    intros H; apply Z.leb_gt in H; apply Z.leb_le; lia.
Qed.

Lemma insert_sorted_HdRel (leb : NeedRow -> NeedRow -> bool) (x y : NeedRow)
    (l : list NeedRow) :
  leb y x = true ->
  HdRel (fun a b => leb a b = true) y l ->
  HdRel (fun a b => leb a b = true) y (insert_sorted leb x l).
Proof.
  intros Hyx Hl. destruct l as [|z l]; cbn; [now constructor|].
  destruct (leb x z); constructor; [exact Hyx | now inversion Hl].
Qed.

Lemma sort_rows_sorted (leb : NeedRow -> NeedRow -> bool) (l : list NeedRow) :
  (forall a b, leb a b = false -> leb b a = true) ->
  Sorted (fun a b => leb a b = true) (sort_rows leb l).
Proof.
  intros Htot. induction l as [|x l IH]; cbn; [constructor|].
  fold (sort_rows leb l). induction IH as [|y l' Hs IHs Hh]; cbn.
  - repeat constructor.
  - destruct (leb x y) eqn:E.
    + constructor; [now constructor | now constructor].
    + constructor; [exact IHs|].
      apply insert_sorted_HdRel; [apply Htot, E | exact Hh].
Qed.

Lemma Sorted_map {A B} (R : A -> A -> Prop) (R' : B -> B -> Prop) (g : A -> B)
    (l : list A) :
  (forall a b, R a b -> R' (g a) (g b)) -> Sorted R l -> Sorted R' (map g l).
Proof.
  intros Hg Hs. induction Hs as [|x l Hs IH Hh]; cbn; constructor; [exact IH|].
  destruct Hh; cbn; constructor. now apply Hg.
Qed.

Lemma effective_column_name (orderBy : string) :
  exists c, column_name c = effective_column orderBy.
Proof.
  unfold effective_column.
  destruct (String.eqb_spec orderBy "id") as [->|_]; [now exists col_id|].
  destruct (String.eqb_spec orderBy "updated_at") as [->|_];
    [now exists col_updated_at | now exists col_created_at].
Qed.

(** X11: when a column is requested and GetOrganizationNeeds returns a
    nil error, the needs come in the order of that column (created_at for
    a column that is neither id nor updated_at) and of the direction (asc
    for the empty one): each need is before the next on that column, a
    null updated_at counting as larger than every time. *)
Theorem GetOrganizationNeeds_in_order (oID : Z) (orderBy order : string)
    (w w' : World) (r : list Need) :
  orderBy <> "" ->
  GetOrganizationNeeds oID orderBy order w = Returned w' (r, None) ->
  exists c d,
    column_name c = effective_column orderBy /\
    direction_name d = (if (order =? "")%string then "asc" else order) /\
    in_order (c, d) r.
Proof.
  intros Hne HG.
  destruct (effective_column_name orderBy) as (c & Hc).
  assert (Hd : exists d,
             direction_name d = (if (order =? "")%string then "asc" else order) /\
             orderFilter orderBy order =
             inl (order_by_clause (column_name c) (direction_name d))).
  { pose proof HG as HG'. unfold GetOrganizationNeeds in HG'.
    rewrite (orderFilter_nonempty _ _ Hne) in HG'.
    rewrite (orderFilter_nonempty _ _ Hne), Hc. revert HG'.
    destruct (String.eqb_spec order "") as [->|_]; [now exists asc|].
    destruct (String.eqb_spec order "asc") as [->|_]; [now exists asc|].
    destruct (String.eqb_spec order "desc") as [->|_]; [now exists desc|].
    discriminate. }
  destruct Hd as (d & Hd & Hf).
  destruct (GetOrganizationNeeds_spec oID orderBy order _ w Hf)
    as (w1 & r1 & e1 & k & HG1 & _ & _ & _ & _ & Hok).
  rewrite HG in HG1. inversion HG1; subst w1 r1 e1.
  destruct (Hok eq_refl) as (ord & Hp & Hr & _).
  rewrite (proj2 parse_listing_clauses c d) in Hp. inversion Hp; subst ord.
  exists c, d. split; [exact Hc|]. split; [exact Hd|].
  unfold in_order. rewrite Hr, map_map. cbn [order_rows].
  apply (Sorted_map (fun a b => row_leb (c, d) a b = true)).
  - intros a b H. rewrite <- H. destruct c, d; reflexivity.
  - apply sort_rows_sorted, row_leb_total.
Qed.

Lemma GetOrganizationNeeds_in_order_witness :
  exists w' r c d,
    GetOrganizationNeeds 7 "bogus" "desc" Sample.w0 = Returned w' (r, None) /\
    map ID r = [1; 2] /\
    column_name c = "created_at" /\ direction_name d = "desc" /\ in_order (c, d) r.
Proof.
  pose (o := GetOrganizationNeeds 7 "bogus" "desc" Sample.w0).
  pose (r := match value o with Some (l, _) => l | None => [] end).
  assert (H : o = Returned (final o) (r, None)) by (vm_compute; reflexivity).
  assert (Hne : "bogus" <> "") by discriminate.
  destruct (GetOrganizationNeeds_in_order 7 "bogus" "desc" Sample.w0 (final o) r Hne H)
    as (c & d & Hc & Hd & Hs).
  exists (final o), r, c, d. split; [exact H|]. split; [vm_compute; reflexivity|].
  split; [exact Hc|]. split; [exact Hd | exact Hs].
Defined.

(** ** Create and Update on the tables *)

(** X12: after a Create that returned no error, a listing of the need's
    organization with no column requested, when it returns a nil error,
    lists the needs that the organization had, in the order of the table,
    followed by the new one, which carries the identifier, the business
    fields and the Active status of the need Create returned. *)
Theorem Create_then_listing (n : Need) (w w1 w2 : World) (n1 : Need) (order : string)
    (r : list Need) :
  Create n w = Returned w1 (n1, None) ->
  GetOrganizationNeeds (OrganizationID n) "" order w1 = Returned w2 (r, None) ->
  exists r0 m,
    r = r0 ++ [m] /\
    map ID r0 = map id (needs_of (db w) (OrganizationID n)) /\
    ID m = ID n1 /\ business m = business n1 /\ Status m = NeedStatusActive.
Proof.
  intros Hc HG.
  destruct (Create_success n w w1 n1 Hc) as (Hn1 & Hrows & _ & _).
  set (row := mkNeedRow _ _ _ _ _ _ _ _ _ _ _ _) in Hrows.
  destruct (GetOrganizationNeeds_spec (OrganizationID n) "" order "" w1
              (orderFilter_empty order))
    as (w' & r' & e' & k & HG1 & _ & _ & _ & _ & Hok).
  rewrite HG in HG1. inversion HG1; subst w' r' e'.
  destruct (Hok eq_refl) as (ord & Hp & Hr & _).
  assert (ord = None) by (vm_compute in Hp; now inversion Hp). subst ord.
  cbn [order_rows] in Hr. unfold needs_of in Hr.
  rewrite Hrows, filter_app in Hr. cbn [filter] in Hr.
  change (organization_id row) with (OrganizationID n) in Hr.
  rewrite Z.eqb_refl, !map_app in Hr. cbn [map] in Hr.
  eexists _, _. split; [exact Hr|]. split.
  - rewrite !map_map. reflexivity.
  - rewrite Hn1. repeat split.
Qed.

Lemma Create_then_listing_witness :
  exists r0 m,
    match value (GetOrganizationNeeds 7 "" "" (final (Create Sample.blanket Sample.w0))) with
    | Some (r, _) => r
    | None => []
    end = r0 ++ [m] /\
    map ID r0 = [1; 2] /\
    ID m = 4 /\
    business m = ("Cobertor", "de casal", 30, 0, Some 1800000000, "un") /\
    Status m = NeedStatusActive.
Proof.
  pose (o1 := Create Sample.blanket Sample.w0).
  pose (n1 := match value o1 with Some (x, _) => x | None => zeroNeed end).
  pose (o2 := GetOrganizationNeeds 7 "" "" (final o1)).
  pose (r := match value o2 with Some (l, _) => l | None => [] end).
  assert (H1 : o1 = Returned (final o1) (n1, None)) by (vm_compute; reflexivity).
  assert (H2 : GetOrganizationNeeds (OrganizationID Sample.blanket) "" "" (final o1) =
               Returned (final o2) (r, None)) by (vm_compute; reflexivity).
  destruct (Create_then_listing Sample.blanket Sample.w0 (final o1) (final o2) n1 "" r
              H1 H2) as (r0 & m & Hr & Hids & Hid & Hb & Hs).
  exists r0, m. split; [exact Hr|]. split; [exact Hids|]. split; [exact Hid|].
  split; [exact Hb | exact Hs].
Defined.

(** What a validation that passed has checked on the tables. *)
Lemma validate_passed (n : Need) (w w1 : World) (m : Need) :
  validate n w = Returned w1 (m, None) ->
  m = set_Title n (strings.TrimSpace (Title n)) /\
  db w1 = db w /\ now w1 = now w /\
  (Title m =? "")%string = false /\
  existsb (fun c => Category_ID c =? CategoryID n) (categories (db w)) = true /\
  existsb (fun o => Organization_ID o =? OrganizationID n) (organizations (db w)) = true.
Proof.
  intros Hv.
  destruct (validate_returns n w) as (w' & e & l & Hr & Hd & Hn & _).
  rewrite Hv in Hr. inversion Hr; subst. split; [reflexivity|].
  split; [exact Hd|]. split; [exact Hn|].
  pose proof (validate_eq n w) as Hq. cbv zeta in Hq. rewrite Hv in Hq.
  destruct (strings.len _ =? 0) eqn:El; [discriminate|].
  destruct (category_error w (CategoryID n)) eqn:Ec; [discriminate|].
  destruct (organization_error _ (OrganizationID n)) eqn:Eo; [discriminate|].
  apply category_error_none in Ec as (_ & c & Hc1 & Hc2).
  apply organization_error_none in Eo as (_ & o & Ho1 & Ho2). cbn [sent db] in Ho1.
  split; [|split].
  - apply String.eqb_neq. intros E. apply len_zero in E. rewrite E in El. discriminate.
  - apply existsb_exists. exists c. split; [exact Hc1 | now apply Z.eqb_eq].
  - apply existsb_exists. exists o. split; [exact Ho1 | now apply Z.eqb_eq].
Qed.

Lemma sound_row_ext (d d' : DB) (r : NeedRow) :
  categories d' = categories d -> organizations d' = organizations d ->
  sound_row d' r = sound_row d r.
Proof. intros Hc Ho. unfold sound_row. now rewrite Hc, Ho. Qed.

(** X13: the rows of needs stay sound through Create and Update.  If
    every row has a title that is not empty and refers to a category and
    to an organization that have a row, the same holds after Create and
    after Update, whatever the need given and whatever the driver
    answers. *)
Theorem needs_stay_sound (n : Need) (w : World) :
  sound (db w) = true ->
  sound (db (final (Create n w))) = true /\ sound (db (final (Update n w))) = true.
Proof.
  intros Hs. rewrite Create_eq, Update_eq.
  destruct (validate n w) as [w1 [m [e|]]|] eqn:Hv.
  - destruct (validate_returns n w) as (w' & e' & l & Hr & Hd & _).
    rewrite Hv in Hr. inversion Hr; subst. cbn [final]. rewrite Hd. now split.
  - destruct (validate_passed n w w1 m Hv) as (Hm & Hd & Hn & Ht & Hc & Ho).
    destruct (answer w1); cbn [final sent db]; [rewrite Hd; now split|].
    unfold sound in *. cbn. rewrite Hd. split.
    + rewrite forallb_app. apply andb_true_iff. split.
      * rewrite forallb_forall in *. intros r Hr. rewrite <- (Hs r Hr). reflexivity.
      * cbn. rewrite andb_true_r. unfold sound_row. cbn.
        rewrite Hm in *. cbn in *. now rewrite Ht, Hc, Ho.
    + rewrite forallb_forall in *. intros r Hr.
      apply in_map_iff in Hr as (r0 & <- & Hr0). specialize (Hs r0 Hr0).
      unfold update_row. destruct (id r0 =? ID m); [|exact Hs].
      unfold sound_row in *. cbn.
      apply andb_true_iff in Hs as [Hs Hso]. rewrite Hm in *. cbn in *.
      now rewrite Ht, Hc, Hso.
  - destruct (validate_returns n w) as (w' & e' & l & Hr & _).
    rewrite Hv in Hr. discriminate.
Qed.

Lemma needs_stay_sound_witness :
  sound (db (final (Create Sample.blanket Sample.tidy))) = true /\
  sound (db (final (Update (set_ID Sample.uncategorized 1) Sample.tidy))) = true.
Proof.
  split.
  - exact (proj1 (needs_stay_sound Sample.blanket Sample.tidy eq_refl)).
  - exact (proj2 (needs_stay_sound (set_ID Sample.uncategorized 1) Sample.tidy eq_refl)).
Defined.

Lemma fresh_not_in (d : DB) :
  needs_id_fresh d = true -> ~ In (needs_id_seq d) (map id (needs d)).
Proof.
  unfold needs_id_fresh. rewrite forallb_forall. intros H Hin.
  apply in_map_iff in Hin as (r & Hr & Hin). specialize (H r Hin).
  apply Z.ltb_lt in H. lia.
Qed.

(** X14: the identifiers of needs stay unique.  On tables where the
    identifiers of needs are all below the next value of the sequence
    and no two rows share one, the same holds after Create and after
    Update, whatever the need given and whatever the driver answers. *)
Theorem needs_ids_stay_unique (n : Need) (w : World) :
  needs_id_fresh (db w) = true ->
  NoDup (map id (needs (db w))) ->
  (needs_id_fresh (db (final (Create n w))) = true /\
   NoDup (map id (needs (db (final (Create n w)))))) /\
  (needs_id_fresh (db (final (Update n w))) = true /\
   NoDup (map id (needs (db (final (Update n w)))))).
Proof.
  intros Hf Hu. split; split;
    try (apply Create_keeps_fresh, Hf); try (apply Update_keeps_fresh, Hf).
  - rewrite Create_eq.
    destruct (validate_returns n w) as (w' & e & l & Hr & Hd & _). rewrite Hr.
    destruct e; cbn [final]; [now rewrite Hd|].
    destruct (answer w'); cbn [final sent db]; [now rewrite Hd|].
    cbn. rewrite Hd, map_app. cbn [map id].
    apply NoDup_app; [exact Hu | repeat constructor; intros [] |].
    intros x Hx [<-|[]]. exact (fresh_not_in _ Hf Hx).
  - rewrite Update_eq.
    destruct (validate_returns n w) as (w' & e & l & Hr & Hd & _). rewrite Hr.
    destruct e; cbn [final]; [now rewrite Hd|].
    destruct (answer w'); cbn [final sent db]; [now rewrite Hd|].
    cbn. rewrite Hd, map_map.
    erewrite map_ext; [exact Hu|]. intros r. cbn.
    match goal with |- id (update_row ?t ?c ?ti ?de ?rq ?rc ?du ?un ?st ?i r) = _ =>
      exact (proj1 (update_row_owner t c ti de rq rc du un st i r)) end.
Qed.

Lemma needs_ids_stay_unique_witness :
  NoDup (map id (needs (db (final (Create Sample.blanket Sample.w0))))) /\
  NoDup (map id (needs (db (final (Update Sample.absent Sample.w0))))).
Proof.
  assert (Hu : NoDup (map id (needs (db Sample.w0)))).
  { cbn. repeat constructor; cbn; intuition discriminate. }
  destruct (needs_ids_stay_unique Sample.blanket Sample.w0 eq_refl Hu) as [[_ H1] _].
  destruct (needs_ids_stay_unique Sample.absent Sample.w0 eq_refl Hu) as [_ [_ H2]].
  split; [exact H1 | exact H2].
Defined.

Lemma filter_update_row (t c : Z) (ti de : string) (rq rc : Z) (du : option Z)
    (un : string) (st : needStatus) (i j : Z) (l : list NeedRow) :
  filter (fun r => id r =? j) (map (update_row t c ti de rq rc du un st i) l) =
  map (update_row t c ti de rq rc du un st i) (filter (fun r => id r =? j) l).
Proof.
  induction l as [|r l IH]; cbn [map filter]; [reflexivity|].
  rewrite (proj1 (update_row_owner t c ti de rq rc du un st i r)).
  destruct (id r =? j); cbn [map]; now rewrite IH.
Qed.

(** X15: after an Update that returned no error on a need whose
    identifier a row has, a Get of that identifier that returns a need
    returns the business fields of the need Update returned (the title
    trimmed), the category and the status given to Update and the time of
    the update; the organization and the creation time are those the row
    had: the organization given to Update is not written. *)
Theorem Update_then_Get (n : Need) (w w1 w2 : World) (n1 m : Need) (e : option error)
    (r : NeedRow) (rest : list NeedRow) :
  needs_with_id (db w) (ID n) = r :: rest ->
  Update n w = Returned w1 (n1, None) ->
  Get (ID n) w1 = Returned w2 (Some m, e) ->
  ID m = ID n /\ business m = business n1 /\
  CategoryID m = CategoryID n /\ Status m = Status n /\
  UpdatedAt m = Some (now w) /\
  OrganizationID m = organization_id r /\ CreatedAt m = created_at r.
Proof.
  intros Hr Hu Hg. rewrite Update_eq in Hu.
  destruct (validate n w) as [w' [v [e'|]]|] eqn:Hv; try discriminate.
  destruct (validate_passed n w w' v Hv) as (Hm & Hd & Hn & _).
  destruct (answer w') eqn:Ea; [discriminate|]. inversion Hu; subst w1 n1; clear Hu.
  destruct (needs_with_id_id _ _ _ _ Hr) as [_ Hid].
  set (w1 := mkWorld _ _ _ _) in Hg.
  assert (Hsel : needs_with_id (db w1) (ID n) =
                 update_row (now w) (CategoryID v) (Title v) (Description v)
                   (RequiredQuantity v) (ReachedQuantity v) (DueDate v) (Unit v)
                   (Status v) (ID v) r
                 :: map (update_row (now w) (CategoryID v) (Title v) (Description v)
                           (RequiredQuantity v) (ReachedQuantity v) (DueDate v) (Unit v)
                           (Status v) (ID v)) rest).
  { unfold needs_with_id, w1. cbn. rewrite Hd, Hn, filter_update_row.
    unfold needs_with_id in Hr. rewrite Hr. reflexivity. }
  pose proof (GetNeed_eq zeroNeed (ID n) w1) as HG. rewrite Hsel in HG.
  destruct (answer w1) as [e1|].
  - unfold Get, bind in Hg. rewrite HG in Hg. discriminate.
  - destruct (Get_after_fetch _ _ _ _ HG)
      as (images & e2 & c & e3 & o & e4 & _ & _ & _ & HGet).
    rewrite HGet in Hg. destruct o as [o|]; [|discriminate].
    inversion Hg; subst. unfold update_row. cbn [ID set_Title].
    rewrite Hid, Z.eqb_refl. repeat split.
Qed.

Lemma Update_then_Get_witness :
  exists m,
    value (Get 3 (final (Update (mkNeed 3 1 7 " Leite " "integral" 9 1 None
                                   NeedStatusInactive "l" 0 None [] zeroCategory
                                   zeroOrganization)
                           (mkWorld (mkDB [Sample.stray] [] [Sample.food]
                                       [Sample.shelter; mkBaseOrganization 8 "Creche"] 4 1)
                              [] [] 1700000000)))) = Some (Some m, None) /\
    business m = ("Leite", "integral", 9, 1, None, "l") /\
    Status m = NeedStatusInactive /\
    UpdatedAt m = Some 1700000000 /\
    OrganizationID m = 8.
Proof.
  pose (n := mkNeed 3 1 7 " Leite " "integral" 9 1 None NeedStatusInactive "l" 0 None []
               zeroCategory zeroOrganization).
  pose (w := mkWorld (mkDB [Sample.stray] [] [Sample.food]
                        [Sample.shelter; mkBaseOrganization 8 "Creche"] 4 1)
                     [] [] 1700000000).
  pose (o1 := Update n w).
  pose (n1 := match value o1 with Some (x, _) => x | None => zeroNeed end).
  pose (o2 := Get 3 (final o1)).
  pose (m := match value o2 with Some (Some x, _) => x | _ => zeroNeed end).
  assert (H0 : needs_with_id (db w) (ID n) = Sample.stray :: []) by reflexivity.
  assert (H1 : o1 = Returned (final o1) (n1, None)) by (vm_compute; reflexivity).
  assert (H2 : Get (ID n) (final o1) = Returned (final o2) (Some m, None))
    by (vm_compute; reflexivity).
  destruct (Update_then_Get n w (final o1) (final o2) n1 m None Sample.stray [] H0 H1 H2)
    as (_ & Hb & _ & Hs & Hu & Ho & _).
  exists m. split; [vm_compute; reflexivity|]. split; [rewrite Hb; reflexivity|].
  split; [exact Hs|]. split; [exact Hu | exact Ho].
Defined.



(** X17: Create adds at most one row, at the end of needs, and writes
    nothing else: the rows there were are kept in their order, and the
    image rows, the categories and the organizations are untouched.
    When Create returns an error, whether from validation or from the
    driver on the INSERT, no row was added, the sequence did not move and
    the need returned keeps the identifier it came with. *)
Theorem Create_appends_at_most_one (n : Need) (w : World) :
  let d' := db (final (Create n w)) in
  beside_needs d' = beside_needs (db w) /\
  (exists l, needs d' = needs (db w) ++ l /\ (List.length l <= 1)%nat) /\
  forall w' m e, Create n w = Returned w' (m, Some e) ->
    db w' = db w /\ ID m = ID n.
Proof.
  cbv zeta. rewrite Create_eq.
  destruct (validate_returns n w) as (w' & e & l & Hr & Hd & _). rewrite Hr.
  destruct e as [e|]; cbn [final].
  { rewrite Hd. split; [reflexivity|]. split.
    - exists []. rewrite app_nil_r. split; [reflexivity | cbn; lia].
    - intros w0 m e0 H. inversion H; subst. now split. }
  destruct (answer w') as [e|]; cbn [final sent db].
  { rewrite Hd. split; [reflexivity|]. split.
    - exists []. rewrite app_nil_r. split; [reflexivity | cbn; lia].
    - intros w0 m e0 H. inversion H; subst. now split. }
  cbn. rewrite Hd. split; [reflexivity|]. split.
  - eexists [_]. split; [reflexivity | cbn; lia].
  - intros w0 m e0 H. discriminate.
Qed.

Lemma Create_appends_at_most_one_witness :
  db (final (Create Sample.blanket (Sample.failing 2 (DriverError "connection reset")))) =
    Sample.d0 /\
  value (Create Sample.blanket (Sample.failing 2 (DriverError "connection reset"))) =
    Some (set_Status (set_Title Sample.blanket "Cobertor") NeedStatusActive,
          Some (DriverError "connection reset")).
Proof.
  pose (w := Sample.failing 2 (DriverError "connection reset")).
  pose (o := Create Sample.blanket w).
  assert (H : o = Returned (final o)
                    (set_Status (set_Title Sample.blanket "Cobertor") NeedStatusActive,
                     Some (DriverError "connection reset")))
    by (vm_compute; reflexivity).
  destruct (Create_appends_at_most_one Sample.blanket w) as (_ & _ & He).
  destruct (He _ _ _ H) as [Hd _].
  split; [exact Hd|]. fold w. fold o. rewrite H. reflexivity.
Defined.

(** ** The title that validation returns *)

Lemma dropSpace_fix (b : bool) (s : list ascii) :
  droppable b s = false -> strings.dropSpace b s = s.
Proof.
  destruct s as [|c0 [|c1 [|c2 s3]]]; cbn; try reflexivity.
  - now destruct (strings.asciiSpace c0).
  - destruct (strings.asciiSpace c0); [discriminate|]. cbn.
    now destruct (if b then strings.space2 c1 c0 else strings.space2 c0 c1).
  - destruct (strings.asciiSpace c0); [discriminate|]. cbn.
    destruct (if b then strings.space2 c1 c0 else strings.space2 c0 c1); [discriminate|].
    cbn. now destruct (if b then strings.space3 c2 c1 c0 else strings.space3 c0 c1 c2).
Qed.

Lemma dropSpace_props (b : bool) (k : nat) (s : list ascii) :
  (List.length s <= k)%nat ->
  droppable b (strings.dropSpace b s) = false /\
  exists p, s = p ++ strings.dropSpace b s.
Proof.
  revert s. induction k as [|k IH]; intros s Hk.
  { destruct s; [|cbn in Hk; lia]. split; [reflexivity | now exists []]. }
  destruct s as [|c0 s1]; [split; [reflexivity | now exists []]|].
  cbn [List.length] in Hk.
  destruct (droppable b (c0 :: s1)) eqn:Ed.
  2:{ rewrite (dropSpace_fix _ _ Ed). split; [exact Ed | now exists []]. }
  cbn [strings.dropSpace]. destruct (strings.asciiSpace c0) eqn:E0.
  { destruct (IH s1 ltac:(lia)) as [H1 [p Hp]]. split; [exact H1|].
    exists (c0 :: p). cbn. now rewrite <- Hp. }
  destruct s1 as [|c1 s2]; [cbn in Ed; rewrite E0 in Ed; discriminate|].
  cbn [List.length] in Hk.
  destruct (if b then strings.space2 c1 c0 else strings.space2 c0 c1) eqn:E1.
  { destruct (IH s2 ltac:(lia)) as [H1 [p Hp]]. split; [exact H1|].
    exists (c0 :: c1 :: p). cbn. now rewrite <- Hp. }
  destruct s2 as [|c2 s3]; [cbn in Ed; rewrite E0, E1 in Ed; discriminate|].
  cbn [List.length] in Hk.
  destruct (if b then strings.space3 c2 c1 c0 else strings.space3 c0 c1 c2) eqn:E2.
  { destruct (IH s3 ltac:(lia)) as [H1 [p Hp]]. split; [exact H1|].
    exists (c0 :: c1 :: c2 :: p). cbn. now rewrite <- Hp. }
  cbn in Ed. rewrite E0, E1, E2 in Ed. discriminate.
Qed.

Lemma droppable_prefix (y t : list ascii) :
  droppable false (y ++ t) = false -> droppable false y = false.
Proof.
  destruct y as [|c0 [|c1 [|c2 y3]]]; cbn; try reflexivity.
  - destruct (strings.asciiSpace c0); [discriminate | reflexivity].
  - destruct (strings.asciiSpace c0); [discriminate|]. cbn.
    destruct (strings.space2 c0 c1); [destruct t; discriminate | reflexivity].
  - tauto.
Qed.

Lemma TrimSpace_idempotent (s : string) :
  strings.TrimSpace (strings.TrimSpace s) = strings.TrimSpace s.
Proof.
  unfold strings.TrimSpace. rewrite list_ascii_of_string_of_list_ascii.
  set (x := strings.dropSpace false (list_ascii_of_string s)).
  set (z := strings.dropSpace true (rev x)).
  destruct (dropSpace_props false _ (list_ascii_of_string s) (le_n _)) as [Hx _].
  fold x in Hx.
  destruct (dropSpace_props true _ (rev x) (le_n _)) as [Hz [p Hp]]. fold z in Hz, Hp.
  assert (Hxz : x = rev z ++ rev p).
  { rewrite <- (rev_involutive x), Hp, rev_app_distr. reflexivity. }
  assert (Hf : strings.dropSpace false (rev z) = rev z).
  { apply dropSpace_fix, (droppable_prefix _ (rev p)). now rewrite <- Hxz. }
  rewrite Hf, rev_involutive, (dropSpace_fix true z Hz). reflexivity.
Qed.

(** X18: the need that validate returns, with or without an error, has a
    title that strings.TrimSpace leaves as it is, and validate returns
    that same need when it is given it again, in any world: the needs
    returned by Create and Update can be passed back without their title
    changing. *)
Theorem validate_returns_a_fixed_point (n : Need) (w w1 : World) (m : Need)
    (e : option error) :
  validate n w = Returned w1 (m, e) ->
  strings.TrimSpace (Title m) = Title m /\
  forall w', exists w'' e', validate m w' = Returned w'' (m, e').
Proof.
  intros Hv.
  destruct (validate_returns n w) as (w0 & e0 & l & Hr & _).
  rewrite Hv in Hr. inversion Hr; subst.
  assert (Ht : strings.TrimSpace (Title (set_Title n (strings.TrimSpace (Title n)))) =
               Title (set_Title n (strings.TrimSpace (Title n)))).
  { cbn [Title set_Title]. apply TrimSpace_idempotent. }
  split; [exact Ht|]. intros w'.
  destruct (validate_returns (set_Title n (strings.TrimSpace (Title n))) w')
    as (w'' & e' & l' & Hr' & _).
  exists w'', e'. rewrite Hr', Ht. reflexivity.
Qed.

Lemma validate_returns_a_fixed_point_witness :
  strings.TrimSpace "Cobertor" = "Cobertor" /\
  exists w'' e',
    validate (set_Title Sample.blanket "Cobertor") Sample.tidy =
    Returned w'' (set_Title Sample.blanket "Cobertor", e').
Proof.
  destruct (validate_returns_a_fixed_point Sample.blanket Sample.w0
              (sent (SelectOrganization 7) (sent (SelectCategory 1) Sample.w0))
              (set_Title Sample.blanket "Cobertor") None eq_refl) as [H1 H2].
  split; [exact H1 | exact (H2 Sample.tidy)].
Defined.

(** ** More on images *)

(** X19: CreateImage sends its INSERT and nothing before it: it does not
    look the need up, so that it succeeds for a need identifier that no
    row of needs has.  It returns the driver's answer; on an error the
    image comes back as given and no table changed; otherwise only the
    identifier of the image changed, one row was added to the image rows
    and the rows of needs are as before. *)
Theorem CreateImage_does_not_check_the_need (i : NeedImage) (w : World) :
  exists w' i',
    CreateImage i w = Returned w' (i', answer w) /\
    sent_by w (CreateImage i w) =
      [InsertNeedsImages (NeedID i) (Name (NeedImage_Image i)) (URL (NeedImage_Image i))] /\
    needs (db w') = needs (db w) /\
    (answer w <> None -> i' = i /\ db w' = db w) /\
    (answer w = None ->
     i' = set_NeedImage_ID i (needs_images_id_seq (db w)) /\
     needs_images (db w') =
       needs_images (db w) ++
       [mkNeedImage (needs_images_id_seq (db w)) (NeedID i)
          (mkImage (Name (NeedImage_Image i)) (URL (NeedImage_Image i)))]).
Proof.
  rewrite CreateImage_eq. unfold sent_by.
  destruct (answer w) as [e|]; eexists _, _; (split; [reflexivity|]);
    cbn [final sent log db needs needs_images];
    rewrite skipn_app, skipn_all, Nat.sub_diag; repeat split; congruence.
Qed.

Lemma CreateImage_does_not_check_the_need_witness :
  exists w' i',
    CreateImage (Sample.photo 0 99) Sample.w0 = Returned w' (i', None) /\
    needs_with_id Sample.d0 99 = [] /\
    i' = Sample.photo 4 99.
Proof.
  destruct (CreateImage_does_not_check_the_need (Sample.photo 0 99) Sample.w0)
    as (w' & i' & H1 & _ & _ & _ & H5).
  exists w', i'. split; [exact H1|]. split; [reflexivity|].
  exact (proj1 (H5 eq_refl)).
Defined.

Lemma filter_swap {A} (f g : A -> bool) (l : list A) :
  filter f (filter g l) = filter g (filter f l).
Proof.
  induction l as [|x l IH]; cbn; [reflexivity|].
  destruct (f x) eqn:Ef, (g x) eqn:Eg; cbn; rewrite ?Ef, ?Eg, IH; reflexivity.
Qed.

(** X20: after a DeleteImage that the driver did not fail, a fetch of the
    images of any need that the driver does not fail returns the images
    the need had before, in their order, without those that have both
    the image identifier and the need identifier deleted: for the need
    named, without those of the image identifier; for another need, all
    its images. *)
Theorem DeleteImage_then_getNeedImages (imageID needID : Z) (w : World) (n : Need) :
  answer w = None ->
  answer (final (DeleteImage imageID needID w)) = None ->
  let after := value (getNeedImages n (final (DeleteImage imageID needID w))) in
  after =
    Some (filter (fun r => negb ((NeedImage_ID r =? imageID) && (NeedID r =? needID)))
            (images_of (db w) (ID n)), None) /\
  (ID n = needID ->
   after = Some (filter (fun r => negb (NeedImage_ID r =? imageID))
                   (images_of (db w) (ID n)), None)) /\
  (ID n <> needID -> after = Some (images_of (db w) (ID n), None)).
Proof.
  intros Ha Ha'. cbv zeta. rewrite DeleteImage_eq in *. cbn [final] in *.
  rewrite getNeedImages_eq, Ha', Ha. cbn [value db needs_images delete_needs_images fst].
  unfold images_of.
  assert (H : filter (fun r => NeedID r =? ID n)
                (filter (fun r => negb (delete_matches imageID needID r))
                   (needs_images (db w))) =
              filter (fun r => negb ((NeedImage_ID r =? imageID) && (NeedID r =? needID)))
                (filter (fun r => NeedID r =? ID n) (needs_images (db w)))).
  { apply filter_swap. }
  rewrite H. split; [reflexivity|]. split.
  - intros <-. f_equal. f_equal. apply filter_ext_in. intros r Hr.
    apply filter_In in Hr as [_ Hr]. now rewrite Hr, andb_true_r.
  - intros Hne. f_equal. f_equal. apply filter_all. intros r Hr.
    apply filter_In in Hr as [_ Hr]. apply Z.eqb_eq in Hr.
    apply negb_true_iff, andb_false_iff. right. apply Z.eqb_neq. congruence.
Qed.

Lemma DeleteImage_then_getNeedImages_witness :
  value (getNeedImages (sqlx.scanNeed zeroNeed Sample.rice)
           (final (DeleteImage 3 1 Sample.w0))) = Some ([Sample.photo 1 1], None) /\
  value (getNeedImages (sqlx.scanNeed zeroNeed Sample.beans)
           (final (DeleteImage 2 1 Sample.w0))) = Some ([Sample.photo 2 2], None).
Proof.
  split.
  - destruct (DeleteImage_then_getNeedImages 3 1 Sample.w0
                (sqlx.scanNeed zeroNeed Sample.rice) eq_refl eq_refl) as (_ & H & _).
    rewrite (H eq_refl). reflexivity.
  - destruct (DeleteImage_then_getNeedImages 2 1 Sample.w0
                (sqlx.scanNeed zeroNeed Sample.beans) eq_refl eq_refl) as (_ & _ & H).
    rewrite H; [reflexivity | discriminate].
Defined.

(** ** What validation and Create read *)

Lemma quiet_2 (s : Stmt) (w : World) :
  quiet 2 w = true <-> answer w = None /\ answer (sent s w) = None.
Proof.
  unfold quiet, answer, sent. cbn [faults].
  destruct (faults w) as [|[e|] [|[e'|] fs]]; cbn; intuition discriminate.
Qed.

(** X21: validate returns a nil error exactly when the trimmed title is
    not empty, the driver fails neither lookup, and a category row and an
    organization row have the identifiers the need gives. *)
Theorem validate_passes_iff (n : Need) (w : World) :
  (exists w1 m, validate n w = Returned w1 (m, None)) <->
  strings.TrimSpace (Title n) <> "" /\
  quiet 2 w = true /\
  (exists c, In c (categories (db w)) /\ Category_ID c = CategoryID n) /\
  (exists o, In o (organizations (db w)) /\ Organization_ID o = OrganizationID n).
Proof.
  pose proof (validate_eq n w) as Hv. cbv zeta in Hv. cbn [Title set_Title] in Hv.
  rewrite (quiet_2 (SelectCategory (CategoryID n)) w).
  pose proof (category_error_none w (CategoryID n)) as Hc.
  pose proof (organization_error_none (sent (SelectCategory (CategoryID n)) w)
                (OrganizationID n)) as Ho.
  cbn [sent db] in Ho. split.
  - intros (w1 & m & H). rewrite H in Hv.
    destruct (strings.len _ =? 0) eqn:El; [discriminate|].
    destruct (category_error w (CategoryID n)); [discriminate|].
    destruct (organization_error _ (OrganizationID n)); [discriminate|].
    destruct (proj1 Hc eq_refl) as [Ha1 Hc'].
    destruct (proj1 Ho eq_refl) as [Ha2 Ho'].
    repeat split; try assumption.
    intros E. rewrite E in El. discriminate.
  - intros (Ht & [Ha1 Ha2] & Hc' & Ho').
    rewrite (len_nonzero _ Ht) in Hv.
    rewrite (proj2 Hc (conj Ha1 Hc')) in Hv.
    rewrite (proj2 Ho (conj Ha2 Ho')) in Hv. eauto.
Qed.

Lemma validate_passes_iff_witness :
  exists w1 m, validate Sample.blanket Sample.w0 = Returned w1 (m, None).
Proof.
  apply (proj2 (validate_passes_iff Sample.blanket Sample.w0)).
  split; [vm_compute; discriminate|]. split; [reflexivity|]. split.
  - exists Sample.food. split; [now left | reflexivity].
  - exists Sample.shelter. split; [now left | reflexivity].
Defined.

(** X22: Create reads eight fields of the need it is given: the category,
    the organization and the business fields.  Two needs that agree on
    them, whatever their identifier, status, timestamps, images and
    embedded category and organization, lead to the same world (the same
    tables and the same statements) and the same error, and when that
    error is nil to the very same returned need. *)
Theorem Create_reads_eight_fields (n n' : Need) (w : World) :
  CategoryID n = CategoryID n' ->
  OrganizationID n = OrganizationID n' ->
  business n = business n' ->
  final (Create n w) = final (Create n' w) /\
  option_map snd (value (Create n w)) = option_map snd (value (Create n' w)) /\
  forall w' m, Create n w = Returned w' (m, None) ->
    ID m = needs_id_seq (db w) /\ Status m = NeedStatusActive /\
    CategoryID m = CategoryID n' /\ OrganizationID m = OrganizationID n' /\
    business m = (strings.TrimSpace (Title n'), Description n', RequiredQuantity n',
                  ReachedQuantity n', DueDate n', Unit n').
Proof.
  intros Hc Ho Hb. unfold business in Hb. inversion Hb as [[Ht Hde Hrq Hrc Hdu Hun]].
  rewrite !Create_eq.
  pose proof (validate_eq n w) as Hv. pose proof (validate_eq n' w) as Hv'.
  cbv zeta in Hv, Hv'. cbn [Title set_Title] in Hv, Hv'.
  rewrite <- Hc, <- Ho, <- Ht in Hv'.
  rewrite Hv, Hv'. clear Hv Hv'.
  destruct (strings.len _ =? 0).
  { split; [reflexivity|]; split; [reflexivity|]; intros ? ? H; discriminate H. }
  destruct (category_error w (CategoryID n)).
  { split; [reflexivity|]; split; [reflexivity|]; intros ? ? H; discriminate H. }
  destruct (organization_error _ (OrganizationID n)).
  { split; [reflexivity|]; split; [reflexivity|]; intros ? ? H; discriminate H. }
  unfold insert_of. cbn [CategoryID OrganizationID Title Description RequiredQuantity
                         ReachedQuantity DueDate Unit set_Title].
  rewrite <- Hc, <- Ho, <- Hde, <- Hrq, <- Hrc, <- Hdu, <- Hun.
  destruct (answer _).
  { split; [reflexivity|]; split; [reflexivity|]; intros ? ? H; discriminate H. }
  split; [reflexivity|]. split; [reflexivity|].
  intros w' m H. inversion H; subst. cbn. rewrite Ht. repeat split.
Qed.

Lemma Create_reads_eight_fields_witness :
  final (Create Sample.blanket Sample.w0) =
  final (Create (mkNeed 0 1 7 "  Cobertor  " "de casal" 30 0 (Some 1800000000)
                   (NeedStatusOther "x") "un" 0 None [Sample.photo 9 9] Sample.food
                   Sample.shelter)
           Sample.w0).
Proof.
  exact (proj1 (Create_reads_eight_fields Sample.blanket
                  (mkNeed 0 1 7 "  Cobertor  " "de casal" 30 0 (Some 1800000000)
                     (NeedStatusOther "x") "un" 0 None [Sample.photo 9 9] Sample.food
                     Sample.shelter)
                  Sample.w0 eq_refl eq_refl eq_refl)).
Defined.

(** ** A need whose category has no row *)

Lemma lookup_category_error (d : DB) (i : Z) (e : error) :
  snd (lookup_category d i) = Some e -> e = ErrNoRows.
Proof.
  unfold lookup_category. destruct (filter _ (categories d)); cbn; intros H;
    [now inversion H | discriminate].
Qed.

Lemma enrich_dangling (l : list Need) (w : World) :
  faults w = [] ->
  (exists n, In n l /\ snd (lookup_category (db w) (CategoryID n)) <> None) ->
  exists w', enrich l w = Returned w' ([], Some ErrNoRows).
Proof.
  revert w. induction l as [|n l IH]; intros w Hq (x & Hx & Hd); [destruct Hx|].
  assert (Ha : forall s, answer (sent s w) = None /\ faults (sent s w) = [])
    by (intros s; unfold answer, sent; cbn; now rewrite Hq).
  cbn [enrich]. unfold bind at 1. rewrite catRepo_Get_eq.
  assert (Ha0 : answer w = None) by (unfold answer; now rewrite Hq).
  rewrite Ha0.
  destruct (lookup_category (db w) (CategoryID n)) as [c [e|]] eqn:Ec.
  { assert (e = ErrNoRows) by (apply (lookup_category_error (db w) (CategoryID n));
                               now rewrite Ec).
    subst e. eexists. reflexivity. }
  unfold bind at 1. rewrite getNeedImages_eq.
  destruct (Ha (SelectCategory (CategoryID n))) as [Ha1 Hq1]. rewrite Ha1.
  unfold bind at 1.
  set (w2 := sent (SelectNeedsImages (ID (set_Category n c))) _).
  assert (Hq2 : faults w2 = []) by (unfold w2, sent; cbn; now rewrite Hq).
  destruct (IH w2 Hq2) as (w' & He).
  { destruct Hx as [<-|Hx]; [rewrite Ec in Hd; now contradiction Hd|].
    exists x. split; [exact Hx | exact Hd]. }
  rewrite He. eexists. reflexivity.
Qed.

(** X23: when the driver fails no statement, the direction is empty,
    "asc" or "desc", and one need of the organization refers to a
    category that has no row, GetOrganizationNeeds returns the empty list
    with sql.ErrNoRows as it is: one such need makes the whole listing
    fail, and the error is not turned into the message that validation
    gives for a missing category. *)
Theorem GetOrganizationNeeds_fails_on_missing_category (oID : Z) (orderBy order : string)
    (w : World) (row : NeedRow) :
  faults w = [] ->
  order = "" \/ order = "asc" \/ order = "desc" ->
  In row (needs (db w)) -> organization_id row = oID ->
  (forall c, In c (categories (db w)) -> Category_ID c <> category_id row) ->
  exists w', GetOrganizationNeeds oID orderBy order w = Returned w' ([], Some ErrNoRows).
Proof.
  intros Hq Hord Hin Horg Hcat.
  assert (Hf : exists f, orderFilter orderBy order = inl f).
  { destruct (String.eqb_spec orderBy "") as [->|Hne]; [now exists ""|].
    rewrite (orderFilter_nonempty _ _ Hne).
    destruct Hord as [->|[->| ->]]; eexists; reflexivity. }
  destruct Hf as (f & Hf).
  destruct (filters_parse f (orderFilter_in_filters _ _ _ Hf)) as (ord & Hp).
  unfold GetOrganizationNeeds. rewrite Hf, Sprintf_listing.
  set (s := SelectOrganizationNeeds _ oID).
  unfold bind, sqlx.SelectNeeds, bind. rewrite run_read by reflexivity.
  assert (Ha0 : answer w = None) by (unfold answer; now rewrite Hq).
  rewrite Ha0. cbn [execute snd s]. rewrite Hp. unfold ret. cbn [snd app].
  apply enrich_dangling.
  - unfold sent. cbn. now rewrite Hq.
  - exists (sqlx.scanNeed zeroNeed row). split.
    + apply in_map. apply (Permutation_in _ (Permutation_sym (order_rows_perm ord _))).
      apply filter_In. split; [exact Hin | now apply Z.eqb_eq].
    + cbn [sent db sqlx.scanNeed CategoryID]. unfold lookup_category.
      destruct (filter _ (categories (db w))) as [|c cs] eqn:Ef; [discriminate|].
      exfalso. assert (Hc : In c (filter (fun r => Category_ID r =? category_id row)
                                    (categories (db w)))) by (rewrite Ef; now left).
      apply filter_In in Hc as [Hc1 Hc2]. apply Z.eqb_eq in Hc2.
      exact (Hcat c Hc1 Hc2).
Qed.

Lemma GetOrganizationNeeds_fails_on_missing_category_witness :
  exists w',
    GetOrganizationNeeds 7 "id" "desc"
      (mkWorld (mkDB [Sample.rice; Sample.beans] [] [] [Sample.shelter] 3 1) [] [] 0) =
    Returned w' ([], Some ErrNoRows).
Proof.
  apply (GetOrganizationNeeds_fails_on_missing_category 7 "id" "desc" _ Sample.beans).
  - reflexivity.
  - right. now right.
  - right. now left.
  - reflexivity.
  - intros c [].
Defined.
